(** * sshmanager-v2: the pool-assignment engine

    A shallow embedding of [models/__init__.py] (the checking state machine
    shared by SSH credentials and proxy ports, and the credential-to-port
    assignment queries), of [controllers/ssh_controllers.py] (the tunnel
    manager with its process-wide registry and remote-port cache), of
    [config.py] and of [utils.wait_for_db_update], together with the
    properties the specification states about them.

    Conventions.
    - A [datetime] is an integer number of clock ticks ([Z]); a nullable
      column is an [option].
    - A table of the entity store is the list of its rows in the store's
      iteration order; a row carries its primary key.
    - An entity reference held in a column is the primary key of the row it
      points to.
    - A Python call that may raise returns a [result]; where the code asks
      a library for what it does not offer, the call raises as the library
      does. *)

From stdpp Require Import gmap strings list fin_maps pretty.
From Stdlib Require Import ZArith Lia Ascii.

Open Scope Z_scope.

(** ** Exceptions and results *)

(** The exception values the modelled code raises or catches.  The Python
    exception classes [OSError], [asyncssh.Error] and [asyncio.TimeoutError]
    have subclasses, so such a value carries [type(exc).__name__] next to its
    message. *)
Inductive exn : Type :=
| ObjectNotFound                         (* pony.orm.ObjectNotFound *)
| SSHError (msg : string)                (* controllers.ssh_controllers.SSHError *)
| OSError (name msg : string)
| AsyncsshError (name msg : string)      (* asyncssh.Error *)
| TimeoutError (name msg : string)       (* asyncio.TimeoutError *)
| OtherError (name msg : string).        (* anything else *)

Inductive result (A : Type) : Type :=
| Ok (a : A)
| Raise (e : exn).
Arguments Ok {A} a.
Arguments Raise {A} e.

(** The class of an exception value, as [except] clauses see it. *)
Inductive exn_class : Type :=
| CObjectNotFound | CSSHError | COSError | CAsyncsshError | CTimeoutError
| COther.

Definition class_of (e : exn) : exn_class :=
  match e with
  | ObjectNotFound => CObjectNotFound
  | SSHError _ => CSSHError
  | OSError _ _ => COSError
  | AsyncsshError _ _ => CAsyncsshError
  | TimeoutError _ _ => CTimeoutError
  | OtherError _ _ => COther
  end.

(** ** Text *)

(** A Python [str] is modelled by the string of its bytes in UTF-8.  On
    ASCII text the two agree character by character; where the code hands
    text to [re], [int] or [repr], which look at characters, the
    properties are stated for ASCII text. *)
Definition is_ascii (c : Ascii.ascii) : bool :=
  bool_decide (Ascii.nat_of_ascii c < 128)%nat.

Fixpoint ascii_only (s : string) : bool :=
  match s with
  | EmptyString => true
  | String c s' => is_ascii c && ascii_only s'
  end.

(** [sys.get_int_max_str_digits()] as the interpreter starts: beyond that
    many digits [int(text)] and [str(number)] raise [ValueError]. *)
Definition int_max_str_digits : nat := 4300.

(** ** models/__init__.py *)

Module Models.

(** The texts of the exceptions the ORM raises where the code asks it for
    what it does not offer.  The wording is the library's; its exception
    classes are what the code meets. *)
Record OrmTexts : Type := mkOrmTexts {
  (* AttributeError: an entity class has no attribute [min] *)
  no_min_text : string;
  (* TypeError: [select] has no translation for the lambda *)
  untranslatable_text : string;
  (* TypeError: [db_session(retry=...)] used as a context manager *)
  retry_text : string;
  (* AttributeError: a [Set] attribute has no [append] *)
  no_append_text : string;
}.

(** *** class CheckingSupported(db.Entity) *)

(** The mixin is an interface over the row type: the primary key, the two
    checking columns and their assignment.  The laws say that assigning one
    column leaves the key and the other column alone. *)
Class CheckingSupported (E : Type) : Type := {
  id : E → nat;
  is_checking : E → bool;
  last_checked : E → option Z;
  set_is_checking : bool → E → E;
  set_last_checked : option Z → E → E;
  id_set_is_checking b e : id (set_is_checking b e) = id e;
  id_set_last_checked t e : id (set_last_checked t e) = id e;
  is_checking_set_is_checking b e : is_checking (set_is_checking b e) = b;
  is_checking_set_last_checked t e :
    is_checking (set_last_checked t e) = is_checking e;
  last_checked_set_is_checking b e :
    last_checked (set_is_checking b e) = last_checked e;
  last_checked_set_last_checked t e :
    last_checked (set_last_checked t e) = t;
}.

Section CheckingSupported.
Context {E : Type} `{CheckingSupported E}.

(** How [ORDER BY last_checked] places the rows whose column is NULL: the
    database binding ([models/database.py]) is not part of the sources at
    hand, and SQLite and MySQL put them first where PostgreSQL puts them
    last. *)
Variable nulls_first : bool.

(** The wording of the ORM's exceptions. *)
Variable texts : OrmTexts.

(** [cls[key]]: the row with that primary key. *)
Definition getitem (tbl : list E) (key : nat) : result E :=
  match List.find (λ o, bool_decide (id o = key)) tbl with
  | Some o => Ok o
  | None => Raise ObjectNotFound
  end.

(** Assignment through [cls[key]]: the store row with that key changes. *)
Definition update_row (key : nat) (f : E → E) (tbl : list E) : list E :=
  List.map (λ o, if bool_decide (id o = key) then f o else o) tbl.

(** [type(self).min(lambda o: o.last_checked)]: an attribute look-up on
    the entity class.  The class offers [select], [get] and [exists] and
    their like, and no [min]: the look-up raises [AttributeError], whatever
    the table holds. *)
Definition cls_min (tbl : list E) : result (option Z) :=
  Raise (OtherError "AttributeError" (no_min_text texts)).

(** The property [need_checking], read on an object.  [and] and [or] stop
    at the first operand that decides, so the minimum is asked for only
    for an object that is not in flight and has been checked. *)
Definition need_checking (tbl : list E) (self : E) : result bool :=
  if negb (is_checking self) then
    match last_checked self with
    | None => Ok true
    | Some t =>
        match cls_min tbl with
        | Ok m => Ok (bool_decide (Some t = m))
        | Raise e => Raise e
        end
    end
  else Ok false.

(** The order of [ORDER BY last_checked] on two column values. *)
Definition last_checked_le (a b : option Z) : bool :=
  match a, b with
  | None, None => true
  | None, Some _ => nulls_first
  | Some _, None => negb nulls_first
  | Some x, Some y => bool_decide (x ≤ y)
  end.

Fixpoint insert_by (x : E) (l : list E) : list E :=
  match l with
  | [] => [x]
  | y :: l' =>
      if last_checked_le (last_checked x) (last_checked y)
      then x :: l
      else y :: insert_by x l'
  end.

(** [.order_by(cls.last_checked)]: rows with equal keys keep the store's
    order. *)
Definition order_by (l : list E) : list E := foldr insert_by [] l.

(** The classmethod [begin_checking]. *)
Definition begin_checking (tbl : list E) (obj : E) : result (list E) :=
  match getitem tbl (id obj) with
  | Ok _ => Ok (update_row (id obj) (set_is_checking true) tbl)
  | Raise e => Raise e
  end.

(** [cls.select(lambda o: o.need_checking)].  The ORM turns the lambda
    into SQL when the query is made; [need_checking] is a property whose
    body calls [type(self).min], for which it has no translation: the
    query is refused with [TypeError] before any row is read. *)
Definition select_need_checking (tbl : list E) : result (list E) :=
  Raise (OtherError "TypeError" (untranslatable_text texts)).

(** The classmethod [get_need_checking].  The returned object is the
    session's object for the row, so after [begin_checking] it reads
    [is_checking = True]. *)
Definition get_need_checking (tbl : list E) (begin : bool)
  : result (option E * list E) :=
  match select_need_checking tbl with
  | Raise e => Raise e
  | Ok query =>
      let obj := head (order_by query) in
      match obj with
      | Some o =>
          if begin then
            match begin_checking tbl o with
            | Ok tbl' => Ok (Some (set_is_checking true o), tbl')
            | Raise e => Raise e
            end
          else Ok (Some o, tbl)
      | None => Ok (None, tbl)
      end
  end.

(** Entering [with db_session(retry=n):].  The ORM takes [retry] only
    where [db_session] decorates a function: as a context manager with a
    non-zero [retry] it raises [TypeError] on entry. *)
Definition db_session_enter (retry : nat) : result unit :=
  if bool_decide (retry = 0%nat) then Ok tt
  else Raise (OtherError "TypeError" (retry_text texts)).

(** The classmethod [end_checking].  [kwargs] holds the keyword arguments
    in the order of [kwargs.items()]; [setattr] is the row's attribute
    assignment.  [now] is the value of [datetime.now()]. *)
Definition end_checking {K : Type} (setattr : K → E → E)
    (now : Z) (tbl : list E) (obj : E) (kwargs : list K)
  : result (list E) :=
  match db_session_enter 3 with
  | Raise e => Raise e
  | Ok _ =>
      match getitem tbl (id obj) with
      | Raise ObjectNotFound => Ok tbl
      | Raise e => Raise e
      | Ok _ =>
          Ok (update_row (id obj)
                (λ obj_by_id,
                   let obj_by_id :=
                     foldl (λ o kv, setattr kv o) obj_by_id kwargs in
                   let obj_by_id := set_is_checking false obj_by_id in
                   set_last_checked (Some now) obj_by_id)
                tbl)
      end
  end.

(** The method [reset_status] of the base class. *)
Definition reset_status (self : E) : E :=
  let self := set_is_checking false self in
  set_last_checked None self.

End CheckingSupported.

(** *** class SSH(CheckingSupported) *)

Record SSH : Type := mkSSH {
  ssh_id : nat;
  ssh_is_checking : bool;
  ssh_last_checked : option Z;
  ip : string;
  username : string;
  password : string;
  is_live : bool;
  port : option nat;          (* Optional('Port'): the key of the port *)
}.

Definition ssh_set_is_checking (b : bool) (s : SSH) : SSH :=
  mkSSH (ssh_id s) b (ssh_last_checked s) (ip s) (username s) (password s)
        (is_live s) (port s).
Definition ssh_set_last_checked (t : option Z) (s : SSH) : SSH :=
  mkSSH (ssh_id s) (ssh_is_checking s) t (ip s) (username s) (password s)
        (is_live s) (port s).
Definition set_ip (v : string) (s : SSH) : SSH :=
  mkSSH (ssh_id s) (ssh_is_checking s) (ssh_last_checked s) v (username s)
        (password s) (is_live s) (port s).
Definition set_username (v : string) (s : SSH) : SSH :=
  mkSSH (ssh_id s) (ssh_is_checking s) (ssh_last_checked s) (ip s) v
        (password s) (is_live s) (port s).
Definition set_password (v : string) (s : SSH) : SSH :=
  mkSSH (ssh_id s) (ssh_is_checking s) (ssh_last_checked s) (ip s) (username s)
        v (is_live s) (port s).
Definition set_is_live (v : bool) (s : SSH) : SSH :=
  mkSSH (ssh_id s) (ssh_is_checking s) (ssh_last_checked s) (ip s) (username s)
        (password s) v (port s).
Definition set_port (v : option nat) (s : SSH) : SSH :=
  mkSSH (ssh_id s) (ssh_is_checking s) (ssh_last_checked s) (ip s) (username s)
        (password s) (is_live s) v.

#[global] Instance SSH_eq_dec : EqDecision SSH.
Proof. solve_decision. Defined.

#[global, refine] Instance SSH_CheckingSupported : CheckingSupported SSH := {
  id := ssh_id;
  is_checking := ssh_is_checking;
  last_checked := ssh_last_checked;
  set_is_checking := ssh_set_is_checking;
  set_last_checked := ssh_set_last_checked;
}.
Proof. all: reflexivity. Defined.

(** A keyword argument of [SSH.end_checking]: an attribute of the entity
    (the primary key cannot be assigned) with a value of its type.
    Assigning a relationship attribute sets this row's end of the link. *)
Inductive SSH_kwarg : Type :=
| SSH_is_checking (v : bool)
| SSH_last_checked (v : option Z)
| SSH_ip (v : string)
| SSH_username (v : string)
| SSH_password (v : string)
| SSH_is_live (v : bool)
| SSH_port (v : option nat).

Definition SSH_setattr (kv : SSH_kwarg) (s : SSH) : SSH :=
  match kv with
  | SSH_is_checking v => ssh_set_is_checking v s
  | SSH_last_checked v => ssh_set_last_checked v s
  | SSH_ip v => set_ip v s
  | SSH_username v => set_username v s
  | SSH_password v => set_password v s
  | SSH_is_live v => set_is_live v s
  | SSH_port v => set_port v s
  end.

(** *** class Port(CheckingSupported) *)

Record Port : Type := mkPort {
  port_id : nat;
  port_is_checking : bool;
  port_last_checked : option Z;
  port_number : Z;
  ssh : option nat;            (* Optional(SSH): the key of the credential *)
  external_ip : string;
  used_ssh_list : gset nat;    (* Set(SSH): the keys of the credentials *)
  time_connected : option Z;
}.

Definition port_set_is_checking (b : bool) (p : Port) : Port :=
  mkPort (port_id p) b (port_last_checked p) (port_number p) (ssh p)
         (external_ip p) (used_ssh_list p) (time_connected p).
Definition port_set_last_checked (t : option Z) (p : Port) : Port :=
  mkPort (port_id p) (port_is_checking p) t (port_number p) (ssh p)
         (external_ip p) (used_ssh_list p) (time_connected p).
Definition set_port_number (v : Z) (p : Port) : Port :=
  mkPort (port_id p) (port_is_checking p) (port_last_checked p) v (ssh p)
         (external_ip p) (used_ssh_list p) (time_connected p).
Definition set_ssh (v : option nat) (p : Port) : Port :=
  mkPort (port_id p) (port_is_checking p) (port_last_checked p)
         (port_number p) v (external_ip p) (used_ssh_list p)
         (time_connected p).
Definition set_external_ip (v : string) (p : Port) : Port :=
  mkPort (port_id p) (port_is_checking p) (port_last_checked p)
         (port_number p) (ssh p) v (used_ssh_list p) (time_connected p).
Definition set_used_ssh_list (v : gset nat) (p : Port) : Port :=
  mkPort (port_id p) (port_is_checking p) (port_last_checked p)
         (port_number p) (ssh p) (external_ip p) v (time_connected p).
Definition set_time_connected (v : option Z) (p : Port) : Port :=
  mkPort (port_id p) (port_is_checking p) (port_last_checked p)
         (port_number p) (ssh p) (external_ip p) (used_ssh_list p) v.

#[global] Instance Port_eq_dec : EqDecision Port.
Proof. solve_decision. Defined.

#[global, refine] Instance Port_CheckingSupported : CheckingSupported Port := {
  id := port_id;
  is_checking := port_is_checking;
  last_checked := port_last_checked;
  set_is_checking := port_set_is_checking;
  set_last_checked := port_set_last_checked;
}.
Proof. all: reflexivity. Defined.

Inductive Port_kwarg : Type :=
| Port_is_checking (v : bool)
| Port_last_checked (v : option Z)
| Port_port_number (v : Z)
| Port_ssh (v : option nat)
| Port_external_ip (v : string)
| Port_used_ssh_list (v : gset nat)
| Port_time_connected (v : option Z).

Definition Port_setattr (kv : Port_kwarg) (p : Port) : Port :=
  match kv with
  | Port_is_checking v => port_set_is_checking v p
  | Port_last_checked v => port_set_last_checked v p
  | Port_port_number v => set_port_number v p
  | Port_ssh v => set_ssh v p
  | Port_external_ip v => set_external_ip v p
  | Port_used_ssh_list v => set_used_ssh_list v p
  | Port_time_connected v => set_time_connected v p
  end.

(** *** Methods of SSH *)

(** The property [SSH.is_usable]. *)
Definition is_usable (self : SSH) : bool :=
  is_live self && bool_decide (port self = None).

(** The classmethod [SSH.get_ssh_for_port]; [cls] is the SSH table. *)
Definition get_ssh_for_port (cls : list SSH) (port : Port) (unique : bool)
  : option SSH :=
  let query := List.filter is_usable cls in
  let query :=
    if unique
    then List.filter (λ s, bool_decide (ssh_id s ∉ used_ssh_list port)) query
    else query in
  head query.

(** The method [SSH.reset_status]. *)
Definition SSH_reset_status (self : SSH) : SSH :=
  let self := reset_status self in
  set_port None self.

(** *** Methods of Port *)

(** The SQL comparison [p.time_connected < time_expired]: a NULL column
    satisfies no comparison. *)
Definition time_lt (a : option Z) (b : Z) : bool :=
  match a with
  | Some t => bool_decide (t < b)
  | None => false
  end.

(** The classmethod [Port.get_need_reset]; [cls] is the Port table. *)
Definition get_need_reset (cls : list Port) (time_expired : Z) : list Port :=
  List.filter
    (λ p, negb (bool_decide (ssh p = None))
          && time_lt (time_connected p) time_expired)
    cls.

(** The property [Port.need_ssh]. *)
Definition need_ssh (self : Port) : bool := bool_decide (ssh self = None).

(** The classmethod [Port.get_need_ssh]. *)
Definition get_need_ssh (cls : list Port) : option Port :=
  head (List.filter need_ssh cls).

(** [collection.append(item)] on a [Set] attribute.  The collection offers
    [add] and [remove], and no [append]: the look-up raises
    [AttributeError]. *)
Definition set_append (texts : OrmTexts) (collection : gset nat) (item : nat)
  : result (gset nat) :=
  Raise (OtherError "AttributeError" (no_append_text texts)).

(** The method [Port.connect_to_ssh]; [now] is [datetime.now()].  The
    outcome comes with the object as the call leaves it: the two
    assignments are made before the history is touched. *)
Definition connect_to_ssh (texts : OrmTexts) (now : Z) (self : Port) (s : SSH)
  : result unit * Port :=
  let self := set_ssh (Some (ssh_id s)) self in
  let self := set_time_connected (Some now) self in
  match set_append texts (used_ssh_list self) (ssh_id s) with
  | Ok used => (Ok tt, set_used_ssh_list used self)
  | Raise e => (Raise e, self)
  end.

(** The method [Port.disconnect_ssh]. *)
Definition disconnect_ssh (self : Port) (s : SSH) (remove_from_used : bool)
  : Port :=
  let self := set_ssh None self in
  if remove_from_used
  then set_used_ssh_list (used_ssh_list self ∖ {[ssh_id s]}) self
  else self.

(** The method [Port.reset_status]. *)
Definition Port_reset_status (self : Port) : Port :=
  let self := reset_status self in
  let self := set_external_ip "" self in
  let self := set_ssh None self in
  let self := set_time_connected None self in
  set_used_ssh_list ∅ self.

(** *** The entity store *)

Record Store : Type := mkStore {
  SSHs : list SSH;
  Ports : list Port;
}.

(** Primary keys identify rows. *)
Definition keys_unique {E} `{CheckingSupported E} (tbl : list E) : Prop :=
  NoDup (id <$> tbl).

(** The one-to-one relationship [SSH.port] / [Port.ssh] is one link seen from
    its two ends: the store keeps the ends in agreement. *)
Definition links_consistent (st : Store) : Prop :=
  ∀ s p, s ∈ SSHs st → p ∈ Ports st →
         (port s = Some (port_id p) ↔ ssh p = Some (ssh_id s)).

(** [s] is the credential some port of the store holds. *)
Definition assigned_to_some_port (st : Store) (s : SSH) : Prop :=
  ∃ p, p ∈ Ports st ∧ ssh p = Some (ssh_id s).

(** [self.reset_status()] for the port [self] of the store.  The rows of
    the port table with the key of [self] are reset; and, the link being one
    seen from two ends, [self.ssh = None] also clears [port] on the
    credential the port held. *)
Definition reset_port (self : Port) (st : Store) : Store :=
  mkStore
    (match ssh self with
     | Some held => update_row held (set_port None) (SSHs st)
     | None => SSHs st
     end)
    (update_row (port_id self) Port_reset_status (Ports st)).

End Models.

(** ** controllers/ssh_controllers.py *)

Module SshControllers.

(** An [asyncssh.SSHClientConnection]: the object's identity and the remote
    port it is connected to (the attribute [_port]). *)
Record SSHClientConnection : Type := mkConnection {
  conn_id : nat;
  _port : Z;
}.

#[global] Instance SSHClientConnection_eq_dec : EqDecision SSHClientConnection.
Proof. solve_decision. Defined.

(** The dataclass [ProxyInfo]. *)
Record ProxyInfo : Type := mkProxyInfo {
  port : Z;
  connection : SSHClientConnection;
  host : string;
  proxy_type : string;
}.

#[global] Instance ProxyInfo_eq_dec : EqDecision ProxyInfo.
Proof. solve_decision. Defined.

(** [ProxyInfo(port=port, connection=connection)], with the defaults of the
    two other fields. *)
Definition new_ProxyInfo (port : Z) (connection : SSHClientConnection)
  : ProxyInfo :=
  mkProxyInfo port connection "localhost" "socks5".

(** The property [ProxyInfo.address]. *)
Definition address (self : ProxyInfo) : string :=
  proxy_type self +:+ "://" +:+ host self +:+ ":" +:+ pretty (port self).

(** The state of the process: the module globals [proxies] and [ssh_port],
    and the connections closed so far (the effect of
    [utils.kill_ssh_connection], newest first). *)
Record State : Type := mkState {
  proxies : list ProxyInfo;
  ssh_port : gmap string (list Z);
  closed : list SSHClientConnection;
}.

Definition set_proxies (v : list ProxyInfo) (st : State) : State :=
  mkState v (ssh_port st) (closed st).
Definition set_ssh_port (v : gmap string (list Z)) (st : State) : State :=
  mkState (proxies st) v (closed st).
Definition set_closed (v : list SSHClientConnection) (st : State) : State :=
  mkState (proxies st) (ssh_port st) v.

(** What the world answers during one call: the values and outcomes of the
    calls that leave this module.  [utils.get_first_success],
    [utils.get_proxy_ip] and [config.get] are not in the sources at hand:
    their answers are taken as given, with the signatures their call sites
    show. *)
Record Env : Type := mkEnv {
  (* utils.get_free_port(), for the calls in which it returns: it binds a
     socket, and when that raises, before the first [try] of
     [connect_ssh], nothing below is run *)
  get_free_port : Z;
  (* config.get('ssh_ports') *)
  config_ssh_ports : string;
  (* await utils.get_first_success([asyncssh.connect(host, ..., port=port)
     for port in ports]) *)
  get_first_success :
    string → string → string → list Z → result SSHClientConnection;
  (* await connection.forward_socks('', port) *)
  forward_socks : SSHClientConnection → Z → result unit;
  (* await get_proxy_ip(proxy_info.address); the empty string is falsy *)
  get_proxy_ip : string → result string;
}.

(** Computations over the process state.  A raised exception keeps the
    state reached so far. *)
Definition M (A : Type) : Type := State → result A * State.

Definition ret {A} (a : A) : M A := λ st, (Ok a, st).
Definition raise {A} (e : exn) : M A := λ st, (Raise e, st).
Definition bind {A B} (m : M A) (k : A → M B) : M B :=
  λ st, match m st with
        | (Ok a, st') => k a st'
        | (Raise e, st') => (Raise e, st')
        end.
(** [try: m  except <handles>: handler]. *)
Definition try_except {A} (m : M A) (handles : exn → bool)
    (handler : exn → M A) : M A :=
  λ st, match m st with
        | (Raise e, st') =>
            if handles e then handler e st' else (Raise e, st')
        | r => r
        end.
Definition lift {A} (r : result A) : M A := λ st, (r, st).
Definition get : M State := λ st, (Ok st, st).
Definition modify (f : State → State) : M unit := λ st, (Ok tt, f st).


#[global] Instance M_ret : MRet M := @ret.
#[global] Instance M_bind : MBind M := λ A B k m, bind m k.

(** [await utils.kill_ssh_connection(connection)]: the connection is
    recorded as closed; the call is taken not to raise. *)
Definition kill_ssh_connection (c : SSHClientConnection) : M unit :=
  modify (λ st, set_closed (c :: closed st) st).

(** [list.remove(x)]: the first element equal to [x] goes. *)
Fixpoint list_remove (x : ProxyInfo) (l : list ProxyInfo) : list ProxyInfo :=
  match l with
  | [] => []
  | y :: l' => if decide (y = x) then l' else y :: list_remove x l'
  end.

(** [kill_proxy_on_port]. *)
Definition kill_proxy_on_port (port0 : Z) : M unit :=
  st ← get;
  match List.find (λ proxy, bool_decide (port proxy = port0)) (proxies st) with
  | Some proxy =>
      modify (λ st, set_proxies (list_remove proxy (proxies st)) st);;
      kill_ssh_connection (connection proxy)
  | None =>
      raise (SSHError ("No proxy on port " +:+ pretty port0 +:+ " found."))
  end.

(** [re.findall(r'\d+', s)] followed by [int]: the maximal runs of decimal
    digits of [s], as numbers.  [cur] is the run being read.  The digits
    read are the ASCII ones, which on ASCII text are all that [\d] matches,
    and a run is read whatever its length, as [int] does up to
    [int_max_str_digits] digits. *)
Definition digit_of (c : Ascii.ascii) : option Z :=
  let n := Z.of_nat (Ascii.nat_of_ascii c) in
  if bool_decide (48 ≤ n ≤ 57) then Some (n - 48) else None.

Fixpoint findall_ints (s : string) (cur : option Z) : list Z :=
  match s with
  | EmptyString => match cur with Some n => [n] | None => [] end
  | String c s' =>
      match digit_of c, cur with
      | Some d, Some n => findall_ints s' (Some (10 * n + d))
      | Some d, None => findall_ints s' (Some d)
      | None, Some n => n :: findall_ints s' None
      | None, None => findall_ints s' None
      end
  end.

(** The key of the remote-port cache: [f"{host}|{username}|{password}"]. *)
Definition cache_key (host username password : string) : string :=
  host +:+ "|" +:+ username +:+ "|" +:+ password.

(** Python's [a or b] on lists: the first operand unless it is empty. *)
Definition list_or (a b : list Z) : list Z :=
  match a with [] => b | _ => a end.

(** The local [ports] of [connect_ssh]: the candidate remote ports. *)
Definition candidate_ports (env : Env) (st : State)
    (host username password : string) : list Z :=
  let config_ports := findall_ints (config_ssh_ports env) None in
  list_or (default [] (ssh_port st !! cache_key host username password))
          (list_or config_ports [22]).

(** The exceptions the inner [except] clause of [connect_ssh] handles. *)
Definition is_transport_error (e : exn) : bool :=
  match e with
  | OSError _ _ | AsyncsshError _ _ | TimeoutError _ _ => true
  | _ => false
  end.

Definition is_SSHError (e : exn) : bool :=
  match e with SSHError _ => true | _ => false end.

(** [type(exc).__name__] and [str(exc)]. *)
Definition exn_name (e : exn) : string :=
  match e with
  | ObjectNotFound => "ObjectNotFound"
  | SSHError _ => "SSHError"
  | OSError n _ | AsyncsshError n _ | TimeoutError n _ | OtherError n _ => n
  end.
Definition exn_str (e : exn) : string :=
  match e with
  | ObjectNotFound => ""
  | SSHError m => m
  | OSError _ m | AsyncsshError _ m | TimeoutError _ m | OtherError _ m => m
  end.

(** [SSHError(f"{type(exc).__name__}: {exc}.")]. *)
Definition wrap (exc : exn) : exn :=
  SSHError (exn_name exc +:+ ": " +:+ exn_str exc +:+ ".").

(** [not port] for the optional integer argument. *)
Definition port_is_falsy (port0 : option Z) : bool :=
  match port0 with
  | None => true
  | Some p => bool_decide (p = 0)
  end.

(** [connect_ssh].  The calls to [logger.debug] leave the state alone and
    are left out; the outer [except SSHError] clause re-raises. *)
Definition connect_ssh (env : Env) (host username password : string)
    (port0 : option Z) : M ProxyInfo :=
  let port0 :=
    if port_is_falsy port0 then get_free_port env else default 0 port0 in
  try_except (kill_proxy_on_port port0) is_SSHError (λ _, ret tt);;
  proxy_info ←
    try_except
      (try_except
         (st ← get;
          let ports := candidate_ports env st host username password in
          connection ← lift (get_first_success env host username password ports);
          modify (λ st,
            set_ssh_port
              (<[cache_key host username password := [_port connection]]>
                 (ssh_port st)) st);;
          lift (forward_socks env connection port0);;
          let proxy_info := new_ProxyInfo port0 connection in
          ip ← lift (get_proxy_ip env (address proxy_info));
          if bool_decide (ip = "")
          then kill_ssh_connection connection;;
               raise (SSHError "Cannot connect to forwarded proxy.")
          else ret proxy_info)
         is_transport_error (λ exc, raise (wrap exc)))
      is_SSHError (λ exc, raise exc);
  modify (λ st, set_proxies (proxies st ++ [proxy_info]) st);;
  ret proxy_info.

(** [verify_ssh]. *)
Definition verify_ssh (env : Env) (host username password : string) : M bool :=
  try_except
    (proxy_info ← connect_ssh env host username password None;
     kill_ssh_connection (connection proxy_info);;
     ret true)
    is_SSHError (λ _, ret false).

(** *** Notions of the specification *)

(** In the specification's words: an error "wrapping the underlying
    transport/auth/timeout cause". *)
Definition wraps_cause (e : exn) : Prop :=
  ∃ exc, is_transport_error exc = true ∧ e = wrap exc.

(** Whether a message holds a colon, as every wrapped cause does. *)
Fixpoint has_colon (s : string) : bool :=
  match s with
  | EmptyString => false
  | String c s' => bool_decide (c = ":"%char) || has_colon s'
  end.

(** The state after the best-effort teardown that opens [connect_ssh]. *)
Definition after_teardown (port0 : Z) (st : State) : State :=
  (try_except (kill_proxy_on_port port0) is_SSHError (λ _, ret tt) st).2.

(** What the inner [except] clause of [connect_ssh] turns an exception
    into. *)
Definition reraised (e : exn) : exn :=
  if is_transport_error e then wrap e else e.

(** The local port [connect_ssh] binds. *)
Definition local_port (env : Env) (port0 : option Z) : Z :=
  if port_is_falsy port0 then get_free_port env else default 0 port0.

(** The registry after the best-effort teardown that opens [connect_ssh]:
    the first entry bound to the local port, if any, is gone. *)
Definition registry_without (port0 : Z) (l : list ProxyInfo) : list ProxyInfo :=
  match List.find (λ proxy, bool_decide (port proxy = port0)) l with
  | Some proxy => list_remove proxy l
  | None => l
  end.

(** *** get_algs_config *)

(** What asyncssh offers: the lists its [get_kex_algs],
    [get_encryption_algs], [get_mac_algs], [get_compression_algs],
    [get_x509_certificate_algs] and [get_public_key_algs] return.  The
    algorithm names are byte strings. *)
Record Asyncssh : Type := mkAsyncssh {
  get_kex_algs : list string;
  get_encryption_algs : list string;
  get_mac_algs : list string;
  get_compression_algs : list string;
  get_x509_certificate_algs : list string;
  get_public_key_algs : list string;
}.

(** [alg.decode()]: the names are ASCII, the text has the same characters. *)
Definition decode (alg : string) : string := alg.

(** [list.remove(x)] on a list of names: the first occurrence goes. *)
Fixpoint remove_name (x : string) (l : list string) : list string :=
  match l with
  | [] => []
  | y :: l' => if decide (y = x) then l' else y :: remove_name x l'
  end.

(** [get_algs_config]: the dictionary of keyword arguments for
    [asyncssh.connect]. *)
Definition get_algs_config (lib : Asyncssh) : gmap string (list string) :=
  let algs_config : gmap string (list string) :=
    <["server_host_key_algs" := ["ssh-rsa"]]>
    (<["kex_algs" := get_kex_algs lib]>
    (<["encryption_algs" := get_encryption_algs lib]>
    (<["mac_algs" := get_mac_algs lib]>
    (<["compression_algs" := get_compression_algs lib]>
    (<["signature_algs" :=
         get_x509_certificate_algs lib ++ get_public_key_algs lib]> ∅))))) in
  let algs_config :=
    if bool_decide ("ecdh-sha2-nistp521"
                    ∈ default [] (algs_config !! "kex_algs"))
    then alter (remove_name "ecdh-sha2-nistp521") "kex_algs" algs_config
    else algs_config in
  (λ algs : list string, decode <$> algs) <$> algs_config.

(** *** Further notions *)

(** The registry holds at most one tunnel per local port. *)
Definition one_entry_per_port (l : list ProxyInfo) : Prop :=
  NoDup (port <$> l).

(** The text holds no bar, the separator of the cache key. *)
Fixpoint bar_free (s : string) : bool :=
  match s with
  | EmptyString => true
  | String c s' => negb (bool_decide (c = "|"%char)) && bar_free s'
  end.

(** The text holds no decimal digit. *)
Fixpoint digit_free (s : string) : bool :=
  match s with
  | EmptyString => true
  | String c s' =>
      match digit_of c with Some _ => false | None => digit_free s' end
  end.

(** [sep.join(str(p) for p in ports)]: a way to write the configured
    candidate ports. *)
Fixpoint join_ports (sep : string) (ports : list Z) : string :=
  match ports with
  | [] => ""
  | [p] => pretty p
  | p :: ports' => pretty p +:+ sep +:+ join_ports sep ports'
  end.

End SshControllers.

(** ** Sample data *)

Module Samples.
Import Models.

(** Two credentials: the stalest one is being checked, the other is idle. *)
Definition ssh_in_flight : SSH :=
  mkSSH 1 true (Some 1) "10.0.0.5" "a" "b" true None.
Definition ssh_idle : SSH :=
  mkSSH 2 false (Some 2) "10.0.0.6" "a" "b" true None.

(** A port holding credential 1, a free port whose history holds
    credential 3, and three credentials: 1 is held by the first port, 2 is
    dead, 3 is live and free. *)
Definition port_assigned : Port :=
  mkPort 1 true (Some 40) 5000 (Some 1%nat) "203.0.113.7" {[1%nat]} (Some 10).
Definition port_free : Port :=
  mkPort 2 false None 5001 None "" {[3%nat]} None.
Definition ssh_held : SSH :=
  mkSSH 1 false (Some 5) "10.0.0.5" "a" "b" true (Some 1%nat).
Definition ssh_dead : SSH :=
  mkSSH 2 false (Some 6) "10.0.0.6" "a" "b" false None.
Definition ssh_free : SSH :=
  mkSSH 3 false (Some 7) "10.0.0.7" "a" "b" true None.
Definition store0 : Store :=
  mkStore [ssh_held; ssh_dead; ssh_free] [port_assigned; port_free].

End Samples.

Module TunnelSamples.
Import SshControllers.

(** A fresh process: no tunnel, no cached port, nothing closed. *)
Definition state0 : State := mkState [] ∅ [].

(** A world where the first candidate port answers, the forward comes up
    and the verification round-trip reads [ip]. *)
Definition env_first_wins (cfg ip : string) : Env :=
  mkEnv 4000 cfg
    (λ _ _ _ ports,
       match ports with
       | x :: _ => Ok (mkConnection 7 x)
       | [] => Raise (OSError "OSError" "no candidate port")
       end)
    (λ _ _, Ok tt)
    (λ _, Ok ip).

Definition env_verified : Env := env_first_wins "2222, 22" "198.51.100.4".
Definition env_unverified : Env := env_first_wins "2222, 22" "".

(** A world where no candidate port answers. *)
Definition env_refused : Env :=
  mkEnv 4000 ""
    (λ _ _ _ _, Raise (OSError "ConnectionRefusedError" "[Errno 111] refused"))
    (λ _ _, Ok tt)
    (λ _, Ok "").

(** A world where the handshake succeeds and the forward cannot be set
    up. *)
Definition env_forward_fails : Env :=
  mkEnv 4000 "22"
    (λ _ _ _ ports,
       match ports with
       | x :: _ => Ok (mkConnection 7 x)
       | [] => Raise (OSError "OSError" "no candidate port")
       end)
    (λ _ _, Raise (OSError "OSError" "[Errno 98] address already in use"))
    (λ _, Ok "198.51.100.4").

(** A registry with one tunnel, on local port 5000. *)
Definition state_one : State :=
  mkState [new_ProxyInfo 5000 (mkConnection 3 22)] ∅ [].

End TunnelSamples.

(** ** utils.py *)

Module Utils.

(** [wait_for_db_update].  [last_sql k] is what [db.last_sql] reads at the
    poll made after [k] sleeps; [polls] counts the sleeps so far.  The loop
    has no bound of its own: [fuel] bounds the polls looked at, and the
    result is the number of sleeps before the return. *)
Fixpoint wait_for_db_update (last_sql : nat → string) (polls fuel : nat)
  : option nat :=
  match fuel with
  | O => None
  | S fuel' =>
      if negb (String.prefix "SELECT" (last_sql polls))
      then Some polls
      else wait_for_db_update last_sql (S polls) fuel'
  end.

End Utils.

(** ** config.py *)

Module Config.

(** The values of the items: integers and booleans. *)
Inductive pyvalue : Type :=
| VInt (n : Z)
| VBool (b : bool).

#[global] Instance pyvalue_eq_dec : EqDecision pyvalue.
Proof. solve_decision. Defined.

(** The dataclass [ConfigItem]. *)
Record ConfigItem : Type := mkConfigItem {
  section : string;
  name : string;
  full_name : string;
  value : pyvalue;
  description : string;
  need_restart : bool;
}.

Definition DEFAULT_CONFIG : list ConfigItem := [
  mkConfigItem "SSH" "tasks_count" "ssh_tasks_count" (VInt 20)
    "Số thread check SSH live/die" false;
  mkConfigItem "SSH" "connection_timeout" "connection_timeout" (VInt 20)
    "Thời gian kết nối tối đa SSH trước khi đánh dấu Die" false;
  mkConfigItem "PORT" "tasks_count" "port_tasks_count" (VInt 20)
    "Số thread quản lý Port và kết nối SSH đến Port" false;
  mkConfigItem "PORT" "use_unique_ssh" "use_unique_ssh" (VBool true)
    "Không dùng lại các SSH đã dùng ở mỗi Port" false;
  mkConfigItem "PORT" "auto_reset_ports" "auto_reset_ports" (VBool true)
    "Tự động đổi IP mỗi Port sau một thời gian nhất định" false;
  mkConfigItem "PORT" "reset_interval" "port_reset_interval" (VInt 60)
    "Thời gian reset IP từng port (đổi IP mỗi x giây)" false;
  mkConfigItem "WEB" "workers" "web_workers_count" (VInt 5)
    "Số workers chạy web (tăng tốc độ truy cập giao diện web)" true;
  mkConfigItem "WEB" "port" "web_port" (VInt 6080)
    "Port chạy web (truy cập web bằng link http://<ip>:<port>)" true
].

(** *** Python's conversions *)

(** Whether [str] writes the number: its decimal digits, the sign apart,
    are at most [int_max_str_digits]. *)
Definition str_within_limit (v : pyvalue) : bool :=
  match v with
  | VInt n => (String.length (pretty (Z.abs n)) <=? int_max_str_digits)%nat
  | VBool _ => true
  end.

(** [str(value)]. *)
Definition str (v : pyvalue) : result string :=
  match v with
  | VInt n =>
      if str_within_limit v then Ok (pretty n)
      else Raise (OtherError "ValueError"
                    ("Exceeds the limit (" +:+ pretty int_max_str_digits
                     +:+ " digits) for integer string conversion; "
                     +:+ "use sys.set_int_max_str_digits() to increase "
                     +:+ "the limit"))
  | VBool true => Ok "True"
  | VBool false => Ok "False"
  end.

(** [repr(text)] on ASCII text: single quotes, unless the text holds a
    single quote and no double one; the quote in use and the backslash
    are escaped, and so are the control characters. *)
Definition squote : ascii := "039"%char.
Definition dquote : ascii := "034"%char.
Definition backslash : ascii := "092"%char.

Fixpoint has_char (q : ascii) (s : string) : bool :=
  match s with
  | EmptyString => false
  | String c s' => bool_decide (c = q) || has_char q s'
  end.

Definition hex_digit (n : nat) : ascii :=
  if (n <? 10)%nat then ascii_of_nat (48 + n) else ascii_of_nat (87 + n).

Definition repr_char (quote c : ascii) : string :=
  let n := nat_of_ascii c in
  if bool_decide (c = backslash) || bool_decide (c = quote)
  then String backslash (String c EmptyString)
  else if bool_decide (n = 9%nat) then String backslash "t"
  else if bool_decide (n = 10%nat) then String backslash "n"
  else if bool_decide (n = 13%nat) then String backslash "r"
  else if (n <? 32)%nat || bool_decide (n = 127%nat)
  then String backslash
         (String "x" (String (hex_digit (n / 16))
                        (String (hex_digit (n mod 16)) EmptyString)))
  else String c EmptyString.

Fixpoint repr_body (quote : ascii) (s : string) : string :=
  match s with
  | EmptyString => EmptyString
  | String c s' => repr_char quote c +:+ repr_body quote s'
  end.

Definition py_repr (s : string) : string :=
  let quote :=
    if has_char squote s && negb (has_char dquote s) then dquote
    else squote in
  String quote (repr_body quote s +:+ String quote EmptyString).

(** The ASCII characters [int] skips around a literal. *)
Definition is_space (c : ascii) : bool :=
  let n := nat_of_ascii c in
  bool_decide (n = 32%nat) || bool_decide (9 ≤ n ≤ 13)%nat.

Fixpoint lstrip (s : string) : string :=
  match s with
  | EmptyString => EmptyString
  | String c s' => if is_space c then lstrip s' else s
  end.

(** The digits of an integer literal: groups of decimal digits, single
    underscores between them.  The scan stops at the first character that
    is neither, and gives the number read, how many digits it has and the
    text left; it gives nothing when an underscore follows an underscore
    or ends the run.  [prev] tells that the previous character was an
    underscore. *)
Fixpoint int_digits (s : string) (acc : Z) (digits : nat) (prev : bool)
  : option (Z * nat * string) :=
  match s with
  | EmptyString => if prev then None else Some (acc, digits, EmptyString)
  | String c s' =>
      match SshControllers.digit_of c with
      | Some d => int_digits s' (10 * acc + d) (S digits) false
      | None =>
          if bool_decide (c = "_"%char)
          then if prev then None else int_digits s' acc digits true
          else if prev then None else Some (acc, digits, s)
      end
  end.

(** [int(text)] on ASCII text: white space, an optional sign, the digits,
    white space.  A malformed literal raises [ValueError] with the first
    200 characters of [repr(text)], and so does a literal of more than
    [int_max_str_digits] digits, before what follows it is looked at. *)
Definition py_int (text : string) : result Z :=
  let invalid :=
    Raise (OtherError "ValueError"
             ("invalid literal for int() with base 10: "
              +:+ String.substring 0 200 (py_repr text))) in
  let body := lstrip text in
  let '(negative, body) :=
    match body with
    | String c body' =>
        if bool_decide (c = "-"%char) then (true, body')
        else if bool_decide (c = "+"%char) then (false, body')
        else (false, body)
    | EmptyString => (false, body)
    end in
  if match body with
     | String c _ => bool_decide (c = "_"%char)
     | EmptyString => false
     end
  then invalid
  else
    match int_digits body 0 0 false with
    | None => invalid
    | Some (n, digits, rest) =>
        if (int_max_str_digits <? digits)%nat
        then Raise (OtherError "ValueError"
                      ("Exceeds the limit (" +:+ pretty int_max_str_digits
                       +:+ " digits) for integer string conversion: "
                       +:+ "value has " +:+ pretty digits
                       +:+ " digits; use sys.set_int_max_str_digits() "
                       +:+ "to increase the limit"))
        else if bool_decide (digits = 0%nat) then invalid
        else if bool_decide (lstrip rest = EmptyString)
        then Ok (if negative then - n else n)
        else invalid
    end.

(** [bool(text)]: a text is true unless it is empty. *)
Definition py_bool (text : string) : bool := negb (bool_decide (text = "")).

(** [t(text)] for [t = type(default)]. *)
Definition convert (default : pyvalue) (text : string) : result pyvalue :=
  match default with
  | VInt _ =>
      match py_int text with
      | Ok n => Ok (VInt n)
      | Raise e => Raise e
      end
  | VBool _ => Ok (VBool (py_bool text))
  end.

(** *** configparser.ConfigParser *)

(** A parser holds the options of the section DEFAULT and the other
    sections, each a dictionary from option names to texts. *)
Record ConfigParser : Type := mkConfigParser {
  defaults : gmap string string;
  sects : gmap string (gmap string string);
}.

(** [configparser.ConfigParser()]. *)
Definition new_ConfigParser : ConfigParser := mkConfigParser ∅ ∅.

(** [config.sections()]: the names of the sections, DEFAULT left out. *)
Definition sections (config : ConfigParser) : gset string :=
  dom (sects config).

(** [optionxform]: option names are lower-cased ([str.lower], on ASCII
    text). *)
Definition lower_char (c : ascii) : ascii :=
  let n := nat_of_ascii c in
  if bool_decide (65 ≤ n ≤ 90)%nat then ascii_of_nat (n + 32) else c.

Fixpoint optionxform (s : string) : string :=
  match s with
  | EmptyString => EmptyString
  | String c s' => String (lower_char c) (optionxform s')
  end.

(** [config.add_section(section)]. *)
Definition add_section (section : string) (config : ConfigParser)
  : result ConfigParser :=
  if bool_decide (section = "DEFAULT")
  then Raise (OtherError "ValueError"
                ("Invalid section name: " +:+ py_repr section))
  else if bool_decide (section ∈ sections config)
  then Raise (OtherError "DuplicateSectionError"
                ("Section " +:+ py_repr section +:+ " already exists"))
  else Ok (mkConfigParser (defaults config)
                          (<[section := ∅]> (sects config))).

(** [config[section][option] = text], for a text without percent sign (the
    texts written by this module are those of [str] on an integer or a
    boolean, which the interpolation check lets through).  [config[section]]
    raises [KeyError] for a section that is not there; the assignment then
    goes through [config.set], which files the option under DEFAULT when
    the section name is empty or DEFAULT. *)
Definition setitem (section option text : string) (config : ConfigParser)
  : result ConfigParser :=
  if negb (bool_decide (section = "DEFAULT"))
     && negb (bool_decide (section ∈ sections config))
  then Raise (OtherError "KeyError" (py_repr section))
  else if bool_decide (section = "") || bool_decide (section = "DEFAULT")
  then Ok (mkConfigParser (<[optionxform option := text]> (defaults config))
                          (sects config))
  else match sects config !! section with
       | Some d =>
           Ok (mkConfigParser
                 (defaults config)
                 (<[section := <[optionxform option := text]> d]>
                    (sects config)))
       | None =>
           Raise (OtherError "NoSectionError"
                    ("No section: " +:+ py_repr section))
       end.

Section Get.
(** What the library's interpolation makes of a stored text when it is
    read ([config], section, option, text).  It returns a text without
    percent sign as it is; the rest of its working is the library's. *)
Variable interpolate :
  ConfigParser → string → string → string → result string.

(** [config.get(section, option)]. *)
Definition get (config : ConfigParser) (section option : string)
  : result string :=
  let sectiondict :=
    if bool_decide (section = "DEFAULT") then Some ∅
    else sects config !! section in
  match sectiondict with
  | None =>
      Raise (OtherError "NoSectionError" ("No section: " +:+ py_repr section))
  | Some d =>
      match (d ∪ defaults config) !! optionxform option with
      | None =>
          Raise (OtherError "NoOptionError"
                   ("No option " +:+ py_repr (optionxform option)
                    +:+ " in section: " +:+ py_repr section))
      | Some text => interpolate config section option text
      end
  end.

(** *** The functions of the module *)

(** The body of the loop of [get_default_config], for one item. *)
Definition add_item (config : ConfigParser) (item : ConfigItem)
  : result ConfigParser :=
  let added :=
    if bool_decide (section item ∉ sections config)
    then add_section (section item) config
    else Ok config in
  match added with
  | Raise e => Raise e
  | Ok config =>
      match str (value item) with
      | Raise e => Raise e
      | Ok text => setitem (section item) (name item) text config
      end
  end.

(** The loop of [get_default_config] over the items, from [config]. *)
Fixpoint add_items (items : list ConfigItem) (config : ConfigParser)
  : result ConfigParser :=
  match items with
  | [] => Ok config
  | item :: items' =>
      match add_item config item with
      | Ok config' => add_items items' config'
      | Raise e => Raise e
      end
  end.

Definition get_default_config_from (items : list ConfigItem)
  : result ConfigParser :=
  add_items items new_ConfigParser.

(** [get_default_config]. *)
Definition get_default_config : result ConfigParser :=
  get_default_config_from DEFAULT_CONFIG.

(** The file [config.ini], as the library reads it: nothing when there is
    no such file, else the configuration parsed from it.  What
    [config.write] stores is read back as it was written.  A file that is
    not a well-formed ini file, on which [config.read] raises, is none of
    the two: the functions below are modelled for a file that is absent or
    parses. *)
Definition File : Type := option ConfigParser.

(** [config.read(CONFIG_FILE)] on a fresh parser: a missing file is
    skipped. *)
Definition read (file : File) : ConfigParser := default new_ConfigParser file.

(** [write_config]. *)
Definition write_config (config : ConfigParser) (file : File) : File :=
  Some config.

(** [get_config]: the configuration and the file afterwards. *)
Definition get_config (file : File) : result ConfigParser * File :=
  let config := read file in
  if bool_decide (sections config = ∅)
  then match get_default_config with
       | Ok config => (Ok config, write_config config file)
       | Raise e => (Raise e, file)
       end
  else (Ok config, file).

(** [get_config_value]. *)
Definition get_config_value (item : ConfigItem) (file : File)
  : result pyvalue * File :=
  match get_config file with
  | (Ok config, file') =>
      match get config (section item) (name item) with
      | Ok text => (convert (value item) text, file')
      | Raise e => (Raise e, file')
      end
  | (Raise e, file') => (Raise e, file')
  end.

End Get.

(** [reset_config]. *)
Definition reset_config (file : File) : result unit * File :=
  match get_default_config with
  | Ok config => (Ok tt, write_config config file)
  | Raise e => (Raise e, file)
  end.

(** The text holds no percent sign. *)
Fixpoint percent_free (s : string) : bool :=
  match s with
  | EmptyString => true
  | String c s' => negb (bool_decide (c = "%"%char)) && percent_free s'
  end.

(** What is taken of the interpolation: plain texts pass unchanged. *)
Definition interpolation_keeps_plain
    (interpolate : ConfigParser → string → string → string → result string)
  : Prop :=
  ∀ config section option text,
    percent_free text = true →
    interpolate config section option text = Ok text.

(** An interpolation that leaves every text alone. *)
Definition no_interpolation (config : ConfigParser)
    (section option text : string) : result string := Ok text.

End Config.

Module ConfigSamples.
Import Config.

(** A file that switches the reuse of credentials off, in so many words. *)
Definition config_unique_off : ConfigParser :=
  mkConfigParser ∅ {[ "PORT" := {[ "use_unique_ssh" := "False" ]} ]}.

(** A file that only sets the web port. *)
Definition config_web_only : ConfigParser :=
  mkConfigParser ∅ {[ "WEB" := {[ "port" := "8080" ]} ]}.

Definition item_use_unique_ssh : ConfigItem :=
  mkConfigItem "PORT" "use_unique_ssh" "use_unique_ssh" (VBool true)
    "Không dùng lại các SSH đã dùng ở mỗi Port" false.

Definition item_web_workers : ConfigItem :=
  mkConfigItem "WEB" "workers" "web_workers_count" (VInt 5)
    "Số workers chạy web (tăng tốc độ truy cập giao diện web)" true.

Definition item_ssh_tasks_count : ConfigItem :=
  mkConfigItem "SSH" "tasks_count" "ssh_tasks_count" (VInt 20)
    "Số thread check SSH live/die" false.

End ConfigSamples.

(** * Properties of the checking state machine and of the assignment queries *)

Module ModelsFacts.
Import Models.

Section CheckingFacts.
Context {E : Type} `{CheckingSupported E}.
Variable texts : OrmTexts.
Implicit Types (tbl l : list E) (o e : E).

Lemma elem_of_filter_bool (f : E → bool) l z :
  z ∈ List.filter f l ↔ z ∈ l ∧ f z = true.
Proof. rewrite !list_elem_of_In. apply filter_In. Qed.

Lemma getitem_found tbl o : o ∈ tbl → ∃ o', getitem tbl (id o) = Ok o'.
Proof.
  intros Ho. unfold getitem.
  destruct (List.find _ tbl) as [o'|] eqn:Hf; [by eexists|].
  apply list_elem_of_In in Ho.
  pose proof (find_none _ _ Hf _ Ho) as Hn. simpl in Hn.
  by apply bool_decide_eq_false in Hn.
Qed.

Lemma getitem_missing tbl key :
  (∀ o, o ∈ tbl → id o ≠ key) → getitem tbl key = Raise ObjectNotFound.
Proof.
  intros Hno. unfold getitem.
  destruct (List.find _ tbl) as [o'|] eqn:Hf; [|done].
  apply find_some in Hf as [Hin Hid]. apply bool_decide_eq_true in Hid.
  apply list_elem_of_In in Hin. by destruct (Hno o' Hin).
Qed.

Lemma getitem_raises tbl key (exc : exn) :
  getitem tbl key = Raise exc → exc = ObjectNotFound.
Proof. unfold getitem. destruct (List.find _ tbl); congruence. Qed.

Lemma elem_of_update_row key (f : E → E) tbl o' :
  o' ∈ update_row key f tbl ↔
  ∃ o, o ∈ tbl ∧ o' = if bool_decide (id o = key) then f o else o.
Proof.
  unfold update_row. rewrite list_elem_of_In, in_map_iff.
  split; intros (o & H1 & H2); exists o.
  - by rewrite list_elem_of_In.
  - by rewrite <- list_elem_of_In.
Qed.

Lemma update_row_lookup key (f : E → E) tbl (i : nat) :
  update_row key f tbl !! i =
  (λ o, if bool_decide (id o = key) then f o else o) <$> tbl !! i.
Proof. unfold update_row. apply list_lookup_fmap. Qed.

Lemma update_row_missing key (f : E → E) tbl :
  (∀ o, o ∈ tbl → id o ≠ key) → update_row key f tbl = tbl.
Proof.
  intros Hno. unfold update_row. induction tbl as [|x tbl IH]; simpl; [done|].
  rewrite bool_decide_eq_false_2 by (apply Hno; left).
  f_equal. apply IH. intros o Ho. apply Hno. by right.
Qed.

(** C2.  What the property [need_checking] evaluates to.  For an object in
    flight it is [False] and for an idle object never checked it is [True],
    the minimum not being asked for; for an idle object that has been
    checked, the one case where the minimum over the table would decide,
    the property raises [AttributeError] whatever the table holds: the
    entity class has no [min]. *)
Theorem need_checking_raises tbl e :
  need_checking texts tbl e =
  if is_checking e then Ok false
  else match last_checked e with
       | None => Ok true
       | Some _ => Raise (OtherError "AttributeError" (no_min_text texts))
       end.
Proof.
  unfold need_checking, cls_min.
  destruct (is_checking e); [done|]. simpl.
  by destruct (last_checked e).
Qed.

(** C1.  [get_need_checking] returns nothing and marks nothing: on every
    table, the empty one included, and for either value of [begin], the
    query over [need_checking] is refused with [TypeError], so the table
    is left as it was and no object is handed out. *)
Theorem get_need_checking_raises nf tbl begin :
  get_need_checking nf texts tbl begin
  = Raise (OtherError "TypeError" (untranslatable_text texts)).
Proof. reflexivity. Qed.

(** C6.  [end_checking] applies nothing: on every call, the row of [obj]
    being in the table or gone, entering [db_session(retry=3)] raises
    [TypeError], before the row is looked up; neither the tolerance for a
    vanished row nor the updates are reached. *)
Theorem end_checking_raises {K : Type} (setattr : K → E → E) (now : Z)
    (tbl : list E) (obj : E) (kwargs : list K) :
  end_checking texts setattr now tbl obj kwargs
  = Raise (OtherError "TypeError" (retry_text texts)).
Proof. reflexivity. Qed.

End CheckingFacts.

(** The three of them on the sample tables.  An idle credential checked at
    2 is the only row: the specification has it selected, the property
    and the query raise. *)
Example need_checking_ssh_idle (texts : OrmTexts) :
  need_checking texts [Samples.ssh_idle] Samples.ssh_idle
  = Raise (OtherError "AttributeError" (no_min_text texts)).
Proof. reflexivity. Qed.

Example get_need_checking_ssh_idle (texts : OrmTexts) :
  get_need_checking true texts [Samples.ssh_idle] true
  = Raise (OtherError "TypeError" (untranslatable_text texts)).
Proof. reflexivity. Qed.

(** [end_checking] on a credential found dead, its row being there. *)
Example end_checking_ssh_dead (texts : OrmTexts) :
  end_checking texts SSH_setattr 100
    [Samples.ssh_in_flight; Samples.ssh_idle] Samples.ssh_in_flight
    [SSH_is_live false]
  = Raise (OtherError "TypeError" (retry_text texts)).
Proof. reflexivity. Qed.

(** [end_checking] on a port whose row is gone. *)
Example end_checking_port_vanished (texts : OrmTexts) :
  end_checking texts Port_setattr 100 [Samples.port_free]
    Samples.port_assigned [Port_external_ip "198.51.100.4"]
  = Raise (OtherError "TypeError" (retry_text texts)).
Proof. reflexivity. Qed.

(** C3. [get_ssh_for_port] only returns a credential of the table that is
    live and assigned to no port; with [unique] set, one outside the
    history of the port [p] it is called for.  Whether the credential sits
    in the history of another port [q] plays no part: the first row of the
    table that is usable and (with [unique]) outside [p]'s own history is
    the one returned. *)
Theorem get_ssh_for_port_spec (st : Store) (p : Port) (unique : bool) :
  links_consistent st →
  (∀ r, get_ssh_for_port (SSHs st) p unique = Some r →
        r ∈ SSHs st ∧ is_live r = true ∧ port r = None ∧
        ¬ assigned_to_some_port st r ∧
        (unique = true → ssh_id r ∉ used_ssh_list p)) ∧
  (∀ q pre s post,
      SSHs st = pre ++ s :: post →
      ssh_id s ∈ used_ssh_list q →
      is_usable s = true →
      (unique = true → ssh_id s ∉ used_ssh_list p) →
      (∀ s', s' ∈ pre →
             is_usable s' = false ∨
             (unique = true ∧ ssh_id s' ∈ used_ssh_list p)) →
      get_ssh_for_port (SSHs st) p unique = Some s).
Proof.
  intros Hlinks. split.
  - intros r Hr. unfold get_ssh_for_port in Hr.
    apply head_Some_elem_of in Hr.
    assert (r ∈ SSHs st ∧ is_usable r = true ∧
            (unique = true → ssh_id r ∉ used_ssh_list p)) as (Hin & Hus & Hun).
    { destruct unique.
      - apply list_elem_of_In, filter_In in Hr as [Hr Hnot].
        apply filter_In in Hr as [Hr Hus].
        apply bool_decide_eq_true in Hnot.
        by rewrite list_elem_of_In.
      - apply list_elem_of_In, filter_In in Hr as [Hr Hus].
        by rewrite list_elem_of_In. }
    unfold is_usable in Hus. apply andb_true_iff in Hus as [Hlive Hport].
    apply bool_decide_eq_true in Hport.
    split_and!; try done.
    intros (p' & Hp' & Hssh).
    apply (Hlinks r p' Hin Hp') in Hssh. congruence.
  - intros q pre s post Heq _ Hus Hun Hpre.
    unfold get_ssh_for_port. rewrite Heq. clear Heq.
    induction pre as [|x pre IH]; simpl.
    + rewrite Hus. destruct unique; simpl; [|done].
      by rewrite bool_decide_eq_true_2 by auto.
    + destruct (Hpre x (list_elem_of_here _ _)) as [Hx|[-> Hx]].
      * rewrite Hx. apply IH. intros s' Hs'. apply Hpre. by right.
      * destruct (is_usable x); simpl.
        -- rewrite bool_decide_eq_false_2 by (intros Hn; by apply Hn).
           apply IH. intros s' Hs'. apply Hpre. by right.
        -- apply IH. intros s' Hs'. apply Hpre. by right.
Qed.

Lemma get_ssh_for_port_spec_witness :
  links_consistent Samples.store0 ∧
  get_ssh_for_port (SSHs Samples.store0) Samples.port_assigned true
  = Some Samples.ssh_free ∧
  ¬ assigned_to_some_port Samples.store0 Samples.ssh_free.
Proof.
  assert (links_consistent Samples.store0) as Hlinks.
  { intros s p Hs Hp. simpl in Hs, Hp.
    rewrite !elem_of_cons, elem_of_nil in Hs.
    rewrite !elem_of_cons, elem_of_nil in Hp.
    destruct Hs as [->|[->|[->|[]]]]; destruct Hp as [->|[->|[]]];
      simpl; split; intros Heq; first [reflexivity | discriminate Heq]. }
  destruct (get_ssh_for_port_spec Samples.store0 Samples.port_assigned true
              Hlinks) as [Hsound Hfirst].
  assert (get_ssh_for_port (SSHs Samples.store0) Samples.port_assigned true
          = Some Samples.ssh_free) as Hget.
  { apply (Hfirst Samples.port_free [Samples.ssh_held; Samples.ssh_dead]
             Samples.ssh_free []).
    - reflexivity.
    - simpl. apply elem_of_singleton. reflexivity.
    - reflexivity.
    - intros _. simpl. rewrite elem_of_singleton. discriminate.
    - intros s' Hs'. rewrite !elem_of_cons, elem_of_nil in Hs'.
      destruct Hs' as [->|[->|[]]]; left; reflexivity. }
  split; [exact Hlinks|]. split; [exact Hget|].
  apply (Hsound Samples.ssh_free Hget).
Defined.

Lemma sublist_filter_bool {A} (f : A → bool) (l : list A) :
  sublist (List.filter f l) l.
Proof.
  induction l as [|x l IH]; simpl; [constructor|].
  destruct (f x); by constructor.
Qed.

(** C8. [get_need_reset] returns exactly the ports, in store order and each
    once, that hold a credential and whose [time_connected] is earlier than
    the expiry threshold.  A port connected at or after the threshold, or
    holding no credential, is not returned. *)
Theorem get_need_reset_spec (cls : list Port) (time_expired : Z) :
  sublist (get_need_reset cls time_expired) cls ∧
  ∀ p, p ∈ get_need_reset cls time_expired ↔
       p ∈ cls ∧ (∃ s, ssh p = Some s) ∧
       (∃ t, time_connected p = Some t ∧ t < time_expired).
Proof.
  split; [apply sublist_filter_bool|].
  intros p. unfold get_need_reset.
  rewrite list_elem_of_In, filter_In, <- list_elem_of_In.
  rewrite andb_true_iff, negb_true_iff, bool_decide_eq_false.
  unfold time_lt. split.
  - intros (Hin & Hssh & Ht). split_and!; [done| |].
    + destruct (ssh p) as [s|]; [by eexists | done].
    + destruct (time_connected p) as [t|]; [|done].
      apply bool_decide_eq_true in Ht. eauto.
  - intros (Hin & [s Hs] & (t & Ht & Hlt)). rewrite Hs, Ht.
    split_and!; [done|done|]. by apply bool_decide_eq_true.
Qed.

Lemma Port_reset_status_idemp (p : Port) :
  Port_reset_status (Port_reset_status p) = Port_reset_status p.
Proof. reflexivity. Qed.

(** The credential table after a reset of the port [p]: the credential [p]
    held has lost its link, the others are as they were. *)
Lemma reset_port_SSHs (p : Port) (st : Store) :
  SSHs (reset_port p st)
  = List.map (λ s, if bool_decide (ssh p = Some (ssh_id s))
                   then set_port None s else s) (SSHs st).
Proof.
  unfold reset_port. destruct (ssh p) as [held|]; simpl.
  - unfold update_row. apply map_ext. intros s.
    change (id s) with (ssh_id s).
    repeat case_bool_decide; congruence.
  - rewrite <- (map_id (SSHs st)) at 1. apply map_ext. intros s.
    first [done | by rewrite bool_decide_eq_false_2].
Qed.

(** C9. After [reset_status] a port of the store, whatever it held, has no
    credential ([need_ssh] is true), an empty history, an empty external
    IP, null [time_connected] and [last_checked], and [is_checking] false;
    its row is still in the store, under the same key and port number.
    The credential it held, if any, has lost its link to the port and is
    otherwise as it was, the other credentials are untouched, and the two
    ends of the link still agree.  A second [reset_status] changes
    nothing. *)
Theorem Port_reset_status_pristine (st : Store) (p : Port) :
  p ∈ Ports st →
  let p' := Port_reset_status p in
  let st' := reset_port p st in
  p' ∈ Ports st' ∧ length (Ports st') = length (Ports st) ∧
  length (SSHs st') = length (SSHs st) ∧
  (∀ (i : nat) s, SSHs st !! i = Some s →
     SSHs st' !! i
     = Some (if bool_decide (ssh p = Some (ssh_id s))
             then set_port None s else s)) ∧
  (links_consistent st → links_consistent st') ∧
  port_id p' = port_id p ∧ port_number p' = port_number p ∧
  need_ssh p' = true ∧ ssh p' = None ∧ used_ssh_list p' = ∅ ∧
  external_ip p' = "" ∧ time_connected p' = None ∧
  last_checked p' = None ∧ is_checking p' = false ∧
  Port_reset_status p' = p' ∧
  reset_port p' st' = st'.
Proof.
  intros Hp p' st'. split_and!; try reflexivity.
  - apply ModelsFacts.elem_of_update_row. exists p. split; [done|].
    by rewrite bool_decide_eq_true_2.
  - simpl. unfold update_row. apply length_map.
  - unfold st'. rewrite reset_port_SSHs. apply length_map.
  - intros i s Hi. unfold st'. rewrite reset_port_SSHs.
    change (List.map ?f ?l) with (f <$> l).
    by rewrite list_lookup_fmap, Hi.
  - intros Hlinks s' q' Hs' Hq'.
    unfold st' in Hs'. rewrite reset_port_SSHs in Hs'.
    apply list_elem_of_In, in_map_iff in Hs' as (s & <- & Hs).
    apply list_elem_of_In in Hs.
    apply ModelsFacts.elem_of_update_row in Hq' as (q & Hq & ->).
    change (id q) with (port_id q).
    pose proof (Hlinks s q Hs Hq) as Hsq.
    pose proof (Hlinks s p Hs Hp) as Hsp.
    destruct (bool_decide (ssh p = Some (ssh_id s))) eqn:Hheld;
      destruct (bool_decide (port_id q = port_id p)) eqn:Hkey; simpl.
    + split; intros [=].
    + apply bool_decide_eq_true in Hheld. apply bool_decide_eq_false in Hkey.
      split; [intros [=]|]. intros Hq'. exfalso.
      apply Hsq in Hq'. apply Hsp in Hheld. congruence.
    + apply bool_decide_eq_false in Hheld. apply bool_decide_eq_true in Hkey.
      split; [|intros [=]]. intros Hport. exfalso.
      apply Hheld, Hsp. congruence.
    + exact Hsq.
  - unfold st', reset_port. simpl. f_equal.
    unfold update_row. rewrite map_map. apply map_ext. intros x.
    change (id x) with (port_id x).
    destruct (bool_decide (port_id x = port_id p)) eqn:Hx; simpl.
    + change (id (Port_reset_status x)) with (port_id x). by rewrite Hx.
    + change (id x) with (port_id x). by rewrite Hx.
Qed.

Lemma Port_reset_status_pristine_witness :
  Samples.port_assigned ∈ Ports Samples.store0 ∧
  need_ssh (Port_reset_status Samples.port_assigned) = true ∧
  used_ssh_list (Port_reset_status Samples.port_assigned) = ∅ ∧
  Port_reset_status Samples.port_assigned
  ∈ Ports (reset_port Samples.port_assigned Samples.store0) ∧
  SSHs (reset_port Samples.port_assigned Samples.store0) !! 0%nat
  = Some (set_port None Samples.ssh_held).
Proof.
  assert (Samples.port_assigned ∈ Ports Samples.store0) as Hin
    by (simpl; left).
  pose proof (Port_reset_status_pristine Samples.store0 Samples.port_assigned
                Hin) as Hreset.
  cbn zeta in Hreset.
  destruct Hreset as (Hrow & _ & _ & Hssh & _ & _ & _ & Hneed & _ & Hused & _).
  split; [exact Hin|]. split; [exact Hneed|]. split; [exact Hused|].
  split; [exact Hrow|].
  exact (Hssh 0%nat Samples.ssh_held eq_refl).
Defined.

End ModelsFacts.

(** * Properties of the tunnel manager *)

Module SshControllersFacts.
Import SshControllers.

Lemma has_colon_app (a b : string) :
  has_colon (a +:+ b) = has_colon a || has_colon b.
Proof.
  induction a as [|c a IH]; simpl; [done|].
  by rewrite IH, orb_assoc.
Qed.

Lemma wrap_has_colon (exc : exn) (msg : string) :
  wrap exc = SSHError msg → has_colon msg = true.
Proof.
  unfold wrap. intros [= <-]. rewrite has_colon_app. simpl.
  apply orb_true_r.
Qed.

(** *** kill_proxy_on_port *)

Lemma find_port_None (p : Z) (l : list ProxyInfo) :
  List.find (λ proxy, bool_decide (port proxy = p)) l = None ↔
  ∀ q, q ∈ l → port q ≠ p.
Proof.
  induction l as [|x l IH]; simpl.
  - split; [intros _ q Hq; by apply elem_of_nil in Hq | done].
  - case_bool_decide as Hx.
    + split; [done|]. intros Hall. by destruct (Hall x (list_elem_of_here _ _)).
    + rewrite IH. split.
      * intros Hall q [->|Hq]%elem_of_cons; auto.
      * intros Hall q Hq. apply Hall. by right.
Qed.

Lemma find_port_first (p : Z) (pre post : list ProxyInfo) (proxy : ProxyInfo) :
  port proxy = p → (∀ q, q ∈ pre → port q ≠ p) →
  List.find (λ proxy, bool_decide (port proxy = p)) (pre ++ proxy :: post)
  = Some proxy.
Proof.
  intros Hp Hpre. induction pre as [|x pre IH]; simpl.
  - by rewrite bool_decide_eq_true_2.
  - rewrite bool_decide_eq_false_2 by (apply Hpre; left).
    apply IH. intros q Hq. apply Hpre. by right.
Qed.

Lemma list_remove_first (pre post : list ProxyInfo) (proxy : ProxyInfo) :
  (∀ q, q ∈ pre → q ≠ proxy) →
  list_remove proxy (pre ++ proxy :: post) = pre ++ post.
Proof.
  intros Hpre. induction pre as [|x pre IH]; simpl.
  - by rewrite decide_True.
  - rewrite decide_False by (apply Hpre; left).
    f_equal. apply IH. intros q Hq. apply Hpre. by right.
Qed.

Lemma kill_proxy_on_port_found (p : Z) (st : State) (proxy : ProxyInfo) :
  List.find (λ proxy, bool_decide (port proxy = p)) (proxies st) = Some proxy →
  kill_proxy_on_port p st =
  (Ok tt, mkState (list_remove proxy (proxies st)) (ssh_port st)
                  (connection proxy :: closed st)).
Proof.
  intros Hf. unfold kill_proxy_on_port, mbind, M_bind, bind, get. simpl.
  rewrite Hf. reflexivity.
Qed.

Lemma kill_proxy_on_port_missing (p : Z) (st : State) :
  List.find (λ proxy, bool_decide (port proxy = p)) (proxies st) = None →
  kill_proxy_on_port p st =
  (Raise (SSHError ("No proxy on port " +:+ pretty p +:+ " found.")), st).
Proof.
  intros Hf. unfold kill_proxy_on_port, mbind, M_bind, bind, get. simpl.
  rewrite Hf. reflexivity.
Qed.

(** C7, as the code has it.  When no registry entry is bound to the local
    port, [kill_proxy_on_port] fails with [SSHError] ("No proxy on port N
    found.") and changes nothing; [SSHError] is also the class of every
    error [connect_ssh] wraps, so the two are told apart by the message
    only.  Otherwise the first entry bound to that port leaves the registry
    and its connection is closed; the cache is untouched. *)
Theorem kill_proxy_on_port_spec (p : Z) (st : State) :
  ((∀ q, q ∈ proxies st → port q ≠ p) →
   kill_proxy_on_port p st =
   (Raise (SSHError ("No proxy on port " +:+ pretty p +:+ " found.")), st)) ∧
  (∀ exc,
     class_of (SSHError ("No proxy on port " +:+ pretty p +:+ " found."))
     = class_of (wrap exc)) ∧
  (∀ pre proxy post,
     proxies st = pre ++ proxy :: post →
     port proxy = p →
     (∀ q, q ∈ pre → port q ≠ p) →
     kill_proxy_on_port p st =
     (Ok tt, mkState (pre ++ post) (ssh_port st)
                     (connection proxy :: closed st))).
Proof.
  split_and!.
  - intros Hno. apply kill_proxy_on_port_missing. by apply find_port_None.
  - reflexivity.
  - intros pre proxy post Heq Hp Hpre.
    rewrite (kill_proxy_on_port_found p st proxy).
    + rewrite Heq, list_remove_first; [done|].
      intros q Hq ->. by apply (Hpre proxy).
    + rewrite Heq. by apply find_port_first.
Qed.

(** C7, as the specification states it, fails: the error of a teardown that
    finds no tunnel on port 5000 and the error of an establishment that no
    remote port answers are of one and the same class. *)
Lemma kill_proxy_on_port_error_not_distinct :
  ∃ e1 e2 st1 st2,
    kill_proxy_on_port 5000 TunnelSamples.state0 = (Raise e1, st1) ∧
    connect_ssh TunnelSamples.env_refused "10.0.0.5" "a" "b" (Some 5000)
                TunnelSamples.state0 = (Raise e2, st2) ∧
    ¬ (class_of e1 ≠ class_of e2).
Proof.
  eexists _, _, _, _. split_and!.
  - vm_compute. reflexivity.
  - vm_compute. reflexivity.
  - intros Hne. by apply Hne.
Qed.

(** *** connect_ssh *)

(** The two ways the opening teardown goes: an entry is bound to the port,
    or none is. *)
Ltac teardown_cases p st :=
  let proxy := fresh "proxy" in
  let Hf := fresh "Hf" in
  unfold after_teardown, registry_without, try_except;
  destruct (List.find (λ proxy, bool_decide (port proxy = p)) (proxies st))
    as [proxy|] eqn:Hf;
  [rewrite (kill_proxy_on_port_found p st proxy Hf)
  |rewrite (kill_proxy_on_port_missing p st Hf)];
  reflexivity.

Lemma teardown_ok (p : Z) (st : State) :
  try_except (kill_proxy_on_port p) is_SSHError (λ _, ret tt) st
  = (Ok tt, after_teardown p st).
Proof.
  teardown_cases p st.
Qed.

Lemma after_teardown_proxies (p : Z) (st : State) :
  proxies (after_teardown p st) = registry_without p (proxies st).
Proof.
  teardown_cases p st.
Qed.

Lemma after_teardown_ssh_port (p : Z) (st : State) :
  ssh_port (after_teardown p st) = ssh_port st.
Proof.
  teardown_cases p st.
Qed.


(** One run of [connect_ssh], step by step. *)
Lemma connect_ssh_run (env : Env) (host username password : string)
    (port0 : option Z) (st : State) :
  connect_ssh env host username password port0 st =
  let p := local_port env port0 in
  let st1 := after_teardown p st in
  match get_first_success env host username password
          (candidate_ports env st1 host username password) with
  | Raise e => (Raise (reraised e), st1)
  | Ok conn =>
      let st2 :=
        set_ssh_port
          (<[cache_key host username password := [_port conn]]> (ssh_port st1))
          st1 in
      match forward_socks env conn p with
      | Raise e => (Raise (reraised e), st2)
      | Ok _ =>
          let proxy_info := new_ProxyInfo p conn in
          match get_proxy_ip env (address proxy_info) with
          | Raise e => (Raise (reraised e), st2)
          | Ok ip =>
              if bool_decide (ip = "")
              then (Raise (SSHError "Cannot connect to forwarded proxy."),
                    set_closed (conn :: closed st2) st2)
              else (Ok proxy_info,
                    set_proxies (proxies st2 ++ [proxy_info]) st2)
          end
      end
  end.
Proof.
  unfold connect_ssh. fold (local_port env port0).
  unfold mbind, M_bind. unfold bind at 1. rewrite teardown_ok.
  unfold bind, try_except, get, lift, modify, raise, ret, kill_ssh_connection,
    reraised.
  cbn zeta.
  destruct (get_first_success env host username password _) as [conn|e].
  2: { destruct e; reflexivity. }
  destruct (forward_socks env conn _) as [[]|e].
  2: { destruct e; reflexivity. }
  destruct (get_proxy_ip env _) as [ip|e].
  2: { destruct e; reflexivity. }
  case_bool_decide; reflexivity.
Qed.


(** C4, as the code has it.  [connect_ssh] returns a handle only when the
    connection, the SOCKS5 forward and the verification round-trip have all
    succeeded, and then the handle is the entry appended to the registry.
    When the round-trip yields no address the connection is closed and the
    call fails with [SSHError] carrying the fixed message "Cannot connect to
    forwarded proxy."; when the handshake, the forward or the round-trip
    raises [OSError], [asyncssh.Error] or [asyncio.TimeoutError] the call
    fails with [SSHError] carrying the name and the message of that cause.
    Whenever the call fails nothing is appended: the registry is the one
    the opening teardown left. *)
Theorem connect_ssh_outcome (env : Env) (host username password : string)
    (port0 : option Z) (st : State) (r : result ProxyInfo) (st' : State) :
  connect_ssh env host username password port0 st = (r, st') →
  let p := local_port env port0 in
  let ports :=
    candidate_ports env (after_teardown p st) host username password in
  (∀ proxy_info, r = Ok proxy_info →
     ∃ conn ip,
       get_first_success env host username password ports = Ok conn ∧
       forward_socks env conn p = Ok tt ∧
       get_proxy_ip env (address proxy_info) = Ok ip ∧ ip ≠ "" ∧
       proxy_info = new_ProxyInfo p conn ∧
       proxies st' = registry_without p (proxies st) ++ [proxy_info]) ∧
  (∀ e, r = Raise e → proxies st' = registry_without p (proxies st)) ∧
  (∀ conn,
     get_first_success env host username password ports = Ok conn →
     forward_socks env conn p = Ok tt →
     get_proxy_ip env (address (new_ProxyInfo p conn)) = Ok "" →
     r = Raise (SSHError "Cannot connect to forwarded proxy.") ∧
     conn ∈ closed st') ∧
  (∀ conn exc,
     get_first_success env host username password ports = Ok conn →
     forward_socks env conn p = Ok tt →
     get_proxy_ip env (address (new_ProxyInfo p conn)) = Raise exc →
     is_transport_error exc = true →
     r = Raise (wrap exc)) ∧
  (∀ exc,
     get_first_success env host username password ports = Raise exc →
     is_transport_error exc = true →
     r = Raise (wrap exc)) ∧
  (∀ conn exc,
     get_first_success env host username password ports = Ok conn →
     forward_socks env conn p = Raise exc →
     is_transport_error exc = true →
     r = Raise (wrap exc)).
Proof.
  rewrite connect_ssh_run. cbn zeta.
  set (p := local_port env port0).
  set (ports := candidate_ports env (after_teardown p st) host username password).
  intros Hrun.
  pose proof (after_teardown_proxies p st) as Hreg.
  destruct (get_first_success env host username password ports)
    as [conn|e1] eqn:Hconn;
    [destruct (forward_socks env conn p) as [[]|e2] eqn:Hfwd;
     [destruct (get_proxy_ip env (address (new_ProxyInfo p conn)))
        as [ip|e3] eqn:Hip; [case_bool_decide as Hempty|]|]|];
    injection Hrun as <- <-;
    (split_and!;
     [intros proxy_info Hr | intros e Hr | intros conn' Hc Hf Hi
     | intros conn' exc Hc Hf Hi Htr | intros exc Hc Htr
     | intros conn' exc Hc Hf Htr]);
    try discriminate; try (exfalso; congruence); try exact Hreg.
  - assert (conn' = conn) as -> by congruence. split; [done|]. simpl. left.
  - injection Hr as <-. exists conn, ip. split_and!; try done.
    simpl. by rewrite Hreg.
  - assert (conn' = conn) as -> by congruence.
    assert (exc = e3) as -> by congruence.
    unfold reraised. by rewrite Htr.
  - assert (conn' = conn) as -> by congruence.
    assert (exc = e2) as -> by congruence.
    unfold reraised. by rewrite Htr.
  - assert (exc = e1) as -> by congruence.
    unfold reraised. by rewrite Htr.
Qed.

Lemma connect_ssh_outcome_witness :
  let proxy_info := new_ProxyInfo 5000 (mkConnection 7 2222) in
  let st' :=
    mkState [proxy_info] {[ cache_key "10.0.0.5" "a" "b" := [2222] ]} [] in
  connect_ssh TunnelSamples.env_verified "10.0.0.5" "a" "b" (Some 5000)
              TunnelSamples.state0 = (Ok proxy_info, st') ∧
  proxies st'
  = registry_without (local_port TunnelSamples.env_verified (Some 5000))
                     (proxies TunnelSamples.state0) ++ [proxy_info].
Proof.
  intros proxy_info st'.
  assert (connect_ssh TunnelSamples.env_verified "10.0.0.5" "a" "b"
            (Some 5000) TunnelSamples.state0 = (Ok proxy_info, st')) as Hrun
    by (vm_compute; reflexivity).
  split; [exact Hrun|].
  destruct (connect_ssh_outcome _ _ _ _ _ _ _ _ Hrun) as (Hok & _).
  destruct (Hok proxy_info eq_refl) as (conn & ip & _ & _ & _ & _ & _ & Hreg).
  exact Hreg.
Defined.

(** C4, as the specification states it, fails: when the verification
    round-trip reads no address, the error raised wraps no underlying
    cause. *)
Lemma connect_ssh_unverified_wraps_nothing :
  ∃ e st',
    connect_ssh TunnelSamples.env_unverified "10.0.0.5" "a" "b" (Some 5000)
                TunnelSamples.state0 = (Raise e, st') ∧
    ¬ wraps_cause e.
Proof.
  eexists _, _. split; [vm_compute; reflexivity|].
  intros (exc & _ & Hwrap). symmetry in Hwrap.
  apply wrap_has_colon in Hwrap. vm_compute in Hwrap. discriminate.
Qed.

(** *** The remote-port cache *)

Lemma candidate_ports_spec (env : Env) (st : State)
    (host username password : string) :
  candidate_ports env st host username password =
  match ssh_port st !! cache_key host username password with
  | Some (x :: l) => x :: l
  | _ => match findall_ints (config_ssh_ports env) None with
         | [] => [22]
         | l => l
         end
  end.
Proof.
  unfold candidate_ports, list_or.
  destruct (ssh_port st !! cache_key host username password) as [[|x l]|];
    simpl; try reflexivity;
    by destruct (findall_ints (config_ssh_ports env) None).
Qed.

(** A successful connection caches its remote port under the key of the
    triple, and the next establishment with the same triple, from the state
    reached, has that port as its only candidate. *)
Lemma connect_ssh_caches_winner (env env2 : Env)
    (host username password : string) (port0 port1 : option Z)
    (st st' : State) (proxy_info : ProxyInfo) :
  connect_ssh env host username password port0 st = (Ok proxy_info, st') →
  ssh_port st' !! cache_key host username password
  = Some [_port (connection proxy_info)] ∧
  candidate_ports env2 (after_teardown (local_port env2 port1) st')
                  host username password
  = [_port (connection proxy_info)].
Proof.
  rewrite connect_ssh_run. cbn zeta. intros Hrun.
  destruct (get_first_success env host username password _) as [conn|];
    [|discriminate].
  destruct (forward_socks env conn _) as [[]|]; [|discriminate].
  destruct (get_proxy_ip env _) as [ip|]; [|discriminate].
  case_bool_decide; [discriminate|]. injection Hrun as <- <-.
  assert (∀ m : gmap string (list Z),
            <[cache_key host username password:=[_port conn]]> m
              !! cache_key host username password = Some [_port conn]) as Hl
    by (intros m; apply lookup_insert_eq).
  split.
  - simpl. apply Hl.
  - rewrite candidate_ports_spec, after_teardown_ssh_port. simpl.
    by rewrite Hl.
Qed.

(** C5 fails on the code where two triples share a key.  The key joins the
    three fields with a bar, so the triples ("10.0.0.5", "a|b", "c") and
    ("10.0.0.5", "a", "b|c") are cached under one key: once the first has
    connected through remote port 2222, an establishment for the second,
    which never connected, has 2222 as its only candidate instead of the
    configured ports 2222 and 22. *)
Theorem connect_ssh_cache_key_collision :
  let st' :=
    (connect_ssh TunnelSamples.env_verified "10.0.0.5" "a|b" "c" (Some 5000)
                 TunnelSamples.state0).2 in
  ("a|b", "c") ≠ ("a", "b|c") ∧
  cache_key "10.0.0.5" "a|b" "c" = cache_key "10.0.0.5" "a" "b|c" ∧
  candidate_ports TunnelSamples.env_verified TunnelSamples.state0
                  "10.0.0.5" "a" "b|c" = [2222; 22] ∧
  ssh_port st' = {[ cache_key "10.0.0.5" "a|b" "c" := [2222] ]} ∧
  candidate_ports TunnelSamples.env_verified st' "10.0.0.5" "a" "b|c"
  = [2222].
Proof.
  assert ((connect_ssh TunnelSamples.env_verified "10.0.0.5" "a|b" "c"
             (Some 5000) TunnelSamples.state0).2
          = mkState [new_ProxyInfo 5000 (mkConnection 7 2222)]
                    {[ cache_key "10.0.0.5" "a|b" "c" := [2222] ]} []) as ->.
  { rewrite connect_ssh_run. reflexivity. }
  split_and!; try done.
Qed.

(** *** verify_ssh *)

Lemma verify_ssh_run (env : Env) (host username password : string)
    (st : State) :
  verify_ssh env host username password st =
  match connect_ssh env host username password None st with
  | (Ok proxy_info, st1) =>
      (Ok true, set_closed (connection proxy_info :: closed st1) st1)
  | (Raise e, st1) => if is_SSHError e then (Ok false, st1) else (Raise e, st1)
  end.
Proof.
  unfold verify_ssh, try_except, mbind, M_bind, bind.
  destruct (connect_ssh env host username password None st) as [[pi|e] st1];
    reflexivity.
Qed.



(** The registry is left as [connect_ssh] leaves it on every outcome. *)
Lemma verify_ssh_registry (env : Env) (host username password : string)
    (st : State) :
  proxies (verify_ssh env host username password st).2
  = proxies (connect_ssh env host username password None st).2.
Proof.
  rewrite verify_ssh_run.
  destruct (connect_ssh env host username password None st) as [[pi|e] st1].
  - reflexivity.
  - by destruct (is_SSHError e).
Qed.

End SshControllersFacts.

(** * Further properties of the checking state machine and of the assignment *)

Module ModelsMore.
Import Models.

Section CheckingMore.
Context {E : Type} `{CheckingSupported E}.
Implicit Types (tbl : list E) (o obj : E).

Lemma update_row_ids key (f : E → E) tbl :
  (∀ o, id (f o) = id o) → id <$> update_row key f tbl = id <$> tbl.
Proof.
  intros Hf. induction tbl as [|x tbl IH]; [done|].
  change (id (if bool_decide (id x = key) then f x else x)
          :: (id <$> update_row key f tbl) = id x :: (id <$> tbl)).
  rewrite IH. f_equal. case_bool_decide; [apply Hf | done].
Qed.

(** X1. [begin_checking] is strict: for an object whose row is gone it
    raises [ObjectNotFound].  When the row is there, the rows with that
    key are marked as checking, their [last_checked] is kept, and every
    other row is left as it was. *)
Theorem begin_checking_spec tbl obj :
  ((∀ o, o ∈ tbl → id o ≠ id obj) →
   begin_checking tbl obj = Raise ObjectNotFound) ∧
  (∀ o, o ∈ tbl → id o = id obj →
     ∃ tbl',
       begin_checking tbl obj = Ok tbl' ∧
       length tbl' = length tbl ∧
       ∀ (i : nat) o1, tbl !! i = Some o1 →
         ∃ o1', tbl' !! i = Some o1' ∧
                last_checked o1' = last_checked o1 ∧
                id o1' = id o1 ∧
                if bool_decide (id o1 = id obj)
                then is_checking o1' = true
                else o1' = o1).
Proof.
  unfold begin_checking. split.
  - intros Hgone. by rewrite ModelsFacts.getitem_missing.
  - intros o Ho Hid.
    destruct (ModelsFacts.getitem_found tbl o Ho) as [o' Hget].
    rewrite Hid in Hget. rewrite Hget. eexists. split; [reflexivity|].
    split; [unfold update_row; apply length_map|].
    intros i o1 Hi. rewrite ModelsFacts.update_row_lookup, Hi. simpl.
    eexists. split; [reflexivity|]. case_bool_decide.
    + by rewrite last_checked_set_is_checking, id_set_is_checking,
        is_checking_set_is_checking.
    + done.
Qed.

End CheckingMore.

(** X5. Marking and resetting never add, drop, reorder or re-key rows: the
    list of primary keys of the table is the same after [begin_checking],
    so unique keys stay unique, and [reset_status] on a port keeps the
    keys of both tables, the credential that loses its link included. *)
Theorem checking_keeps_keys :
  (∀ {E : Type} `{CheckingSupported E} (tbl tbl' : list E) (obj : E),
      begin_checking tbl obj = Ok tbl' →
      id <$> tbl' = id <$> tbl ∧ (keys_unique tbl → keys_unique tbl')) ∧
  (∀ (p : Port) (st : Store),
      ssh_id <$> SSHs (reset_port p st) = ssh_id <$> SSHs st ∧
      port_id <$> Ports (reset_port p st) = port_id <$> Ports st).
Proof.
  split.
  - intros E HE tbl tbl' obj. unfold begin_checking.
    destruct (getitem tbl (id obj)); [|discriminate]. intros [= <-].
    assert (id <$> update_row (id obj) (set_is_checking true) tbl
            = id <$> tbl) as Hids
      by (apply update_row_ids; intros o; apply id_set_is_checking).
    split; [exact Hids|]. unfold keys_unique. by rewrite Hids.
  - intros p st. split.
    + unfold reset_port. destruct (ssh p) as [held|]; [|done]. simpl.
      exact (update_row_ids (E:=SSH) held (set_port None) (SSHs st)
               (λ _, eq_refl)).
    + exact (update_row_ids (E:=Port) (port_id p) Port_reset_status
               (Ports st) (λ _, eq_refl)).
Qed.

(** *** Assignment *)

Lemma get_ssh_for_port_Some (cls : list SSH) (p : Port) (unique : bool)
    (r : SSH) :
  get_ssh_for_port cls p unique = Some r →
  r ∈ cls ∧ is_usable r = true ∧
  (unique = true → ssh_id r ∉ used_ssh_list p).
Proof.
  unfold get_ssh_for_port. intros Hr. apply head_Some_elem_of in Hr.
  destruct unique.
  - apply ModelsFacts.elem_of_filter_bool in Hr as [Hr Hnot].
    apply ModelsFacts.elem_of_filter_bool in Hr as [Hr Hus].
    apply bool_decide_eq_true in Hnot. done.
  - apply ModelsFacts.elem_of_filter_bool in Hr as [Hr Hus]. done.
Qed.

Lemma head_filter_None {A} (f : A → bool) (l : list A) :
  head (List.filter f l) = None ↔ ∀ x, x ∈ l → f x = false.
Proof.
  induction l as [|y l IH]; simpl.
  - split; [intros _ x Hx; by apply elem_of_nil in Hx | done].
  - destruct (f y) eqn:Hy; simpl.
    + split; [done|]. intros Hall.
      specialize (Hall y (list_elem_of_here _ _)). congruence.
    + rewrite IH. split.
      * intros Hall x [->|Hx]%elem_of_cons; auto.
      * intros Hall x Hx. apply Hall. by right.
Qed.

(** X6. [get_ssh_for_port] returns nothing exactly when every credential of the
    table is dead, held by a port or, with [unique], in the history of the
    port; without [unique] the port plays no part at all. *)
Theorem get_ssh_for_port_None (cls : list SSH) (p : Port) (unique : bool) :
  (get_ssh_for_port cls p unique = None ↔
   ∀ s, s ∈ cls →
        is_live s = false ∨ port s ≠ None ∨
        (unique = true ∧ ssh_id s ∈ used_ssh_list p)) ∧
  (∀ q, get_ssh_for_port cls p false = get_ssh_for_port cls q false).
Proof.
  split; [|done].
  assert (∀ s, is_usable s = false ↔ is_live s = false ∨ port s ≠ None)
    as Husable.
  { intros s. unfold is_usable. rewrite andb_false_iff, bool_decide_eq_false.
    done. }
  unfold get_ssh_for_port. destruct unique.
  - rewrite head_filter_None. split.
    + intros Hall s Hs.
      destruct (is_usable s) eqn:Hus.
      * right. right. split; [done|].
        assert (s ∈ List.filter is_usable cls) as Hin
          by by apply ModelsFacts.elem_of_filter_bool.
        specialize (Hall s Hin). apply bool_decide_eq_false in Hall.
        by apply dec_stable.
      * apply Husable in Hus. tauto.
    + intros Hall s [Hs Hus]%ModelsFacts.elem_of_filter_bool.
      apply bool_decide_eq_false.
      destruct (Hall s Hs) as [Hd|[Hd|[_ Hd]]].
      * assert (is_usable s = false) by (apply Husable; auto). congruence.
      * assert (is_usable s = false) by (apply Husable; auto). congruence.
      * intros Hn. by apply Hn.
  - rewrite head_filter_None. split.
    + intros Hall s Hs. specialize (Hall s Hs). apply Husable in Hall. tauto.
    + intros Hall s Hs. apply Husable.
      destruct (Hall s Hs) as [Hd|[Hd|[Hd _]]]; [auto|auto|discriminate].
Qed.

(** X7. [get_need_ssh] returns nothing exactly when every port holds a
    credential; the port it returns holds none.  A port due for rotation
    holds a credential, so no port is both returned by [get_need_ssh] and
    listed by [get_need_reset]. *)
Theorem get_need_ssh_spec (cls : list Port) :
  (get_need_ssh cls = None ↔ ∀ p, p ∈ cls → ssh p ≠ None) ∧
  (∀ p, get_need_ssh cls = Some p → p ∈ cls ∧ ssh p = None) ∧
  (∀ p time_expired,
      p ∈ get_need_reset cls time_expired →
      need_ssh p = false ∧ get_need_ssh cls ≠ Some p).
Proof.
  assert (∀ p, get_need_ssh cls = Some p → p ∈ cls ∧ ssh p = None) as Hsome.
  { intros p Hp. unfold get_need_ssh in Hp. apply head_Some_elem_of in Hp.
    apply ModelsFacts.elem_of_filter_bool in Hp as [Hp Hneed].
    by apply bool_decide_eq_true in Hneed. }
  split_and!; [|exact Hsome|].
  - unfold get_need_ssh. rewrite head_filter_None.
    unfold need_ssh. by setoid_rewrite bool_decide_eq_false.
  - intros p time_expired Hp. unfold get_need_reset in Hp.
    apply ModelsFacts.elem_of_filter_bool in Hp as [Hp Hcond].
    apply andb_true_iff in Hcond as [Hssh _].
    apply negb_true_iff in Hssh. split; [exact Hssh|].
    intros Hget. apply Hsome in Hget as [_ Hnone].
    apply bool_decide_eq_false in Hssh. done.
Qed.

(** X8. [connect_to_ssh] never completes: for every port and credential the
    call raises [AttributeError] where it reaches [append], the history
    being a [Set].  By then the object has been given the credential and
    the connection time; its history is the one from before the call, so
    no call records a credential in it. *)
Theorem connect_to_ssh_raises (texts : OrmTexts) (now : Z) (p : Port)
    (s : SSH) :
  ∃ p',
    connect_to_ssh texts now p s
    = (Raise (OtherError "AttributeError" (no_append_text texts)), p') ∧
    ssh p' = Some (ssh_id s) ∧ time_connected p' = Some now ∧
    used_ssh_list p' = used_ssh_list p ∧
    port_id p' = port_id p ∧ port_number p' = port_number p ∧
    external_ip p' = external_ip p ∧
    is_checking p' = is_checking p ∧ last_checked p' = last_checked p.
Proof. eexists. split; [reflexivity|]. by split_and!. Qed.

(** X9. The history decides reuse.  After a port has given up a credential
    it needs one again and is never due for rotation, though its
    [time_connected] still reads the old connection time.  If the history
    is kept it is the one from before, and a credential in it is never
    offered to the port again by [get_ssh_for_port] with [unique]; if it
    is purged, the credential has left the history, nothing else has, and
    the history is unchanged when the credential was not in it. *)
Theorem used_ssh_list_decides_reuse (p : Port) (s : SSH) :
  let kept := disconnect_ssh p s false in
  let purged := disconnect_ssh p s true in
  need_ssh kept = true ∧ need_ssh purged = true ∧
  time_connected kept = time_connected p ∧
  time_connected purged = time_connected p ∧
  (∀ cls time_expired,
      (kept ∉ get_need_reset cls time_expired) ∧
      (purged ∉ get_need_reset cls time_expired)) ∧
  used_ssh_list kept = used_ssh_list p ∧
  (ssh_id s ∈ used_ssh_list p →
   ∀ cls r, get_ssh_for_port cls kept true = Some r → ssh_id r ≠ ssh_id s) ∧
  used_ssh_list purged = used_ssh_list p ∖ {[ssh_id s]} ∧
  (ssh_id s ∉ used_ssh_list purged) ∧
  (ssh_id s ∉ used_ssh_list p → used_ssh_list purged = used_ssh_list p).
Proof.
  intros kept purged. split_and!; try reflexivity.
  - intros cls time_expired. unfold get_need_reset.
    rewrite !ModelsFacts.elem_of_filter_bool. simpl. split; intros [_ [=]].
  - intros Hused cls r Hr Hid.
    apply get_ssh_for_port_Some in Hr as (_ & _ & Hnot).
    specialize (Hnot eq_refl). rewrite Hid in Hnot. by apply Hnot.
  - simpl. rewrite elem_of_difference, elem_of_singleton. tauto.
  - intros Hnew. simpl. apply set_eq. intros x.
    rewrite !elem_of_difference, elem_of_singleton.
    split; [tauto|]. intros Hx. split; [tauto|]. by intros ->.
Qed.

(** X10. [SSH.reset_status] clears the checking columns and the link to a port
    and nothing else: the credential keeps its key, its address, its login
    and its liveness, so after the reset it is usable exactly when it is
    live; a second reset changes nothing. *)
Theorem SSH_reset_status_spec (s : SSH) :
  let s' := SSH_reset_status s in
  is_checking s' = false ∧ last_checked s' = None ∧ port s' = None ∧
  ssh_id s' = ssh_id s ∧ ip s' = ip s ∧ username s' = username s ∧
  password s' = password s ∧ is_live s' = is_live s ∧
  is_usable s' = is_live s ∧
  SSH_reset_status s' = s'.
Proof.
  intros s'. split_and!; try reflexivity.
  unfold is_usable. simpl. apply andb_true_r.
Qed.

End ModelsMore.

(** * Further properties of the tunnel manager *)

Module SshControllersMore.
Import SshControllers.

(** *** The registry *)

Lemma find_port_Some (p : Z) (l : list ProxyInfo) (proxy : ProxyInfo) :
  List.find (λ proxy, bool_decide (port proxy = p)) l = Some proxy →
  ∃ pre post,
    l = pre ++ proxy :: post ∧ port proxy = p ∧ ∀ q, q ∈ pre → port q ≠ p.
Proof.
  induction l as [|x l IH]; simpl; [discriminate|].
  case_bool_decide as Hx.
  - intros [= <-]. exists [], l. split_and!; [done|done|].
    intros q Hq. by apply elem_of_nil in Hq.
  - intros Hf. destruct (IH Hf) as (pre & post & -> & Hp & Hpre).
    exists (x :: pre), post. split_and!; [done|done|].
    intros q [->|Hq]%elem_of_cons; auto.
Qed.

(** The registry the teardown of port [p] leaves. *)
Lemma registry_without_cases (p : Z) (l : list ProxyInfo) :
  (registry_without p l = l ∧ ∀ q, q ∈ l → port q ≠ p) ∨
  (∃ pre proxy post,
     l = pre ++ proxy :: post ∧ port proxy = p ∧
     (∀ q, q ∈ pre → port q ≠ p) ∧
     registry_without p l = pre ++ post).
Proof.
  unfold registry_without.
  destruct (List.find (λ proxy, bool_decide (port proxy = p)) l)
    as [proxy|] eqn:Hf.
  - right. destruct (find_port_Some p l proxy Hf) as (pre & post & -> & Hp & Hpre).
    exists pre, proxy, post. split_and!; try done.
    apply SshControllersFacts.list_remove_first.
    intros q Hq ->. by apply (Hpre proxy).
  - left. split; [done|]. by apply SshControllersFacts.find_port_None.
Qed.

Lemma registry_without_one_entry (p : Z) (l : list ProxyInfo) :
  one_entry_per_port l →
  one_entry_per_port (registry_without p l) ∧
  ∀ q, q ∈ registry_without p l ↔ q ∈ l ∧ port q ≠ p.
Proof.
  unfold one_entry_per_port. intros Hnd.
  destruct (registry_without_cases p l)
    as [[-> Hno]|(pre & proxy & post & -> & Hp & Hpre & ->)].
  - split; [done|]. intros q. split; [intros Hq; auto | tauto].
  - rewrite fmap_app, fmap_cons in Hnd.
    apply NoDup_app in Hnd as (Hpre_nd & Hdisj & Hpost_nd).
    apply NoDup_cons in Hpost_nd as [Hfresh Hpost_nd].
    split.
    + rewrite fmap_app. apply NoDup_app. split_and!; [done| |done].
      intros x Hx Hx'. apply (Hdisj x Hx). by right.
    + intros q. rewrite !elem_of_app, elem_of_cons. split.
      * intros [Hq|Hq]; [split; [by left | by apply Hpre]|].
        split; [right; by right|]. intros Heq. apply Hfresh.
        rewrite Hp, <- Heq. by apply list_elem_of_fmap_2.
      * intros [[Hq|[->|Hq]] Hne]; [by left|done|by right].
Qed.

Lemma kill_proxy_on_port_registry (p : Z) (st : State) :
  proxies (kill_proxy_on_port p st).2 = registry_without p (proxies st).
Proof.
  unfold registry_without.
  destruct (List.find (λ proxy, bool_decide (port proxy = p)) (proxies st))
    as [proxy|] eqn:Hf.
  - by rewrite (SshControllersFacts.kill_proxy_on_port_found p st proxy Hf).
  - by rewrite (SshControllersFacts.kill_proxy_on_port_missing p st Hf).
Qed.

(** The registry after [connect_ssh]: what the opening teardown left, and
    the new handle on success. *)
Lemma connect_ssh_registry (env : Env) (host username password : string)
    (port0 : option Z) (st : State) :
  let run := connect_ssh env host username password port0 st in
  proxies run.2
  = registry_without (local_port env port0) (proxies st)
    ++ match run.1 with Ok proxy_info => [proxy_info] | Raise _ => [] end ∧
  ∀ proxy_info, run.1 = Ok proxy_info →
                port proxy_info = local_port env port0.
Proof.
  cbn zeta. rewrite SshControllersFacts.connect_ssh_run. cbn zeta.
  pose proof (SshControllersFacts.after_teardown_proxies
                (local_port env port0) st) as Hreg.
  destruct (get_first_success env host username password _) as [conn|e1];
    [destruct (forward_socks env conn _) as [[]|e2];
     [destruct (get_proxy_ip env _) as [ip|e3]; [case_bool_decide|]|]|];
    simpl; rewrite ?app_nil_r, Hreg; split; try done.
  by intros proxy_info [= <-].
Qed.

(** X11. "At most one tunnel per local port" is an invariant of the registry:
    [kill_proxy_on_port], [connect_ssh] and [verify_ssh] keep it, whatever
    their outcome. *)
Theorem one_entry_per_port_kept (env : Env) (host username password : string)
    (port0 : option Z) (p : Z) (st : State) :
  one_entry_per_port (proxies st) →
  one_entry_per_port (proxies (kill_proxy_on_port p st).2) ∧
  one_entry_per_port
    (proxies (connect_ssh env host username password port0 st).2) ∧
  one_entry_per_port (proxies (verify_ssh env host username password st).2).
Proof.
  intros Hinv.
  assert (∀ port1,
            one_entry_per_port
              (proxies (connect_ssh env host username password port1 st).2))
    as Hconnect.
  { intros port1.
    destruct (connect_ssh_registry env host username password port1 st)
      as [-> Hport].
    destruct (registry_without_one_entry (local_port env port1) _ Hinv)
      as [Hnd Hmem].
    destruct (connect_ssh env host username password port1 st).1
      as [proxy_info|e]; [|by rewrite app_nil_r].
    unfold one_entry_per_port in *. rewrite fmap_app.
    apply NoDup_app. split_and!; [done| |apply NoDup_singleton].
    intros x Hx Hx'. simpl in Hx'. apply list_elem_of_singleton in Hx'.
    apply list_elem_of_fmap in Hx as (q & -> & Hq).
    apply Hmem in Hq as [_ Hne]. apply Hne. rewrite Hx'. by apply Hport. }
  split_and!.
  - rewrite kill_proxy_on_port_registry.
    by apply registry_without_one_entry.
  - apply Hconnect.
  - rewrite SshControllersFacts.verify_ssh_registry. apply Hconnect.
Qed.

Lemma one_entry_per_port_kept_witness :
  one_entry_per_port (proxies TunnelSamples.state_one) ∧
  one_entry_per_port
    (proxies (connect_ssh TunnelSamples.env_verified "10.0.0.5" "a" "b"
                (Some 5000) TunnelSamples.state_one).2).
Proof.
  assert (one_entry_per_port (proxies TunnelSamples.state_one)) as Hinv.
  { unfold one_entry_per_port. simpl. apply NoDup_singleton. }
  split; [exact Hinv|].
  destruct (one_entry_per_port_kept TunnelSamples.env_verified
              "10.0.0.5" "a" "b" (Some 5000) 5000 TunnelSamples.state_one
              Hinv) as (_ & Hconnect & _).
  exact Hconnect.
Defined.

(** X12. With at most one tunnel per local port, a teardown that succeeds
    removes exactly the entries bound to the port, one entry in all, and a
    second teardown of the same port fails with [SSHError] and changes
    nothing. *)
Theorem kill_proxy_on_port_twice (p : Z) (st st' : State) :
  one_entry_per_port (proxies st) →
  kill_proxy_on_port p st = (Ok tt, st') →
  (∀ q, q ∈ proxies st' ↔ q ∈ proxies st ∧ port q ≠ p) ∧
  S (length (proxies st')) = length (proxies st) ∧
  kill_proxy_on_port p st'
  = (Raise (SSHError ("No proxy on port " +:+ pretty p +:+ " found.")), st').
Proof.
  intros Hinv Hkill.
  pose proof (kill_proxy_on_port_registry p st) as Hreg.
  rewrite Hkill in Hreg. simpl in Hreg.
  destruct (registry_without_one_entry p _ Hinv) as [_ Hmem].
  rewrite <- Hreg in Hmem.
  split_and!; [exact Hmem| |].
  - destruct (List.find (λ proxy, bool_decide (port proxy = p)) (proxies st))
      as [proxy|] eqn:Hf.
    + destruct (find_port_Some p _ proxy Hf) as (pre & post & Heq & Hp & Hpre).
      rewrite Hreg. unfold registry_without. rewrite Hf, Heq.
      rewrite SshControllersFacts.list_remove_first
        by (intros q Hq ->; by apply (Hpre proxy)).
      rewrite !length_app. simpl. lia.
    + rewrite (SshControllersFacts.kill_proxy_on_port_missing p st Hf) in Hkill.
      discriminate.
  - apply SshControllersFacts.kill_proxy_on_port_missing.
    apply SshControllersFacts.find_port_None.
    intros q Hq. by apply Hmem in Hq as [_ Hne].
Qed.

Lemma kill_proxy_on_port_twice_witness :
  let st' := mkState [] ∅ [mkConnection 3 22] in
  one_entry_per_port (proxies TunnelSamples.state_one) ∧
  kill_proxy_on_port 5000 TunnelSamples.state_one = (Ok tt, st') ∧
  kill_proxy_on_port 5000 st'
  = (Raise (SSHError ("No proxy on port " +:+ pretty 5000 +:+ " found.")),
     st').
Proof.
  intros st'.
  assert (one_entry_per_port (proxies TunnelSamples.state_one)) as Hinv.
  { unfold one_entry_per_port. simpl. apply NoDup_singleton. }
  assert (kill_proxy_on_port 5000 TunnelSamples.state_one = (Ok tt, st'))
    as Hkill by reflexivity.
  split; [exact Hinv|]. split; [exact Hkill|].
  destruct (kill_proxy_on_port_twice 5000 TunnelSamples.state_one st'
              Hinv Hkill) as (_ & _ & Hagain).
  exact Hagain.
Defined.

(** *** What a call leaves behind *)

Lemma after_teardown_kill (p : Z) (st : State) :
  after_teardown p st = (kill_proxy_on_port p st).2.
Proof.
  unfold after_teardown, try_except.
  destruct (List.find (λ proxy, bool_decide (port proxy = p)) (proxies st))
    as [proxy|] eqn:Hf.
  - by rewrite (SshControllersFacts.kill_proxy_on_port_found p st proxy Hf).
  - by rewrite (SshControllersFacts.kill_proxy_on_port_missing p st Hf).
Qed.

Lemma candidate_ports_after_teardown (env : Env) (p : Z) (st : State)
    (host username password : string) :
  candidate_ports env (after_teardown p st) host username password
  = candidate_ports env st host username password.
Proof.
  unfold candidate_ports.
  by rewrite SshControllersFacts.after_teardown_ssh_port.
Qed.

(** The cache after [connect_ssh]. *)
Lemma connect_ssh_cache (env : Env) (host username password : string)
    (port0 : option Z) (st : State) :
  ssh_port (connect_ssh env host username password port0 st).2
  = match get_first_success env host username password
            (candidate_ports env st host username password) with
    | Ok conn =>
        <[cache_key host username password := [_port conn]]> (ssh_port st)
    | Raise _ => ssh_port st
    end.
Proof.
  rewrite SshControllersFacts.connect_ssh_run. cbn zeta.
  rewrite candidate_ports_after_teardown.
  pose proof (SshControllersFacts.after_teardown_ssh_port
                (local_port env port0) st) as Hcache.
  destruct (get_first_success env host username password _) as [conn|e1];
    [destruct (forward_socks env conn _) as [[]|e2];
     [destruct (get_proxy_ip env _) as [ip|e3]; [case_bool_decide|]|]|];
    simpl; by rewrite Hcache.
Qed.

(** The connections closed by [connect_ssh] beyond the opening teardown. *)
Lemma connect_ssh_closed (env : Env) (host username password : string)
    (port0 : option Z) (st : State) :
  let p := local_port env port0 in
  let st1 := (kill_proxy_on_port p st).2 in
  closed (connect_ssh env host username password port0 st).2
  = match get_first_success env host username password
            (candidate_ports env st host username password) with
    | Ok conn =>
        match forward_socks env conn p,
              get_proxy_ip env (address (new_ProxyInfo p conn)) with
        | Ok _, Ok ip =>
            if bool_decide (ip = "") then conn :: closed st1 else closed st1
        | _, _ => closed st1
        end
    | Raise _ => closed st1
    end.
Proof.
  cbn zeta. rewrite SshControllersFacts.connect_ssh_run. cbn zeta.
  rewrite candidate_ports_after_teardown, <- after_teardown_kill.
  destruct (get_first_success env host username password _) as [conn|e1];
    [destruct (forward_socks env conn _) as [[]|e2];
     [destruct (get_proxy_ip env _) as [ip|e3]; [case_bool_decide|]|]|];
    reflexivity.
Qed.

(** X13. A failed [connect_ssh] leaves the local port without a tunnel: with at
    most one tunnel per port before the call, no registry entry is bound to
    the port afterwards, and the tunnel that was bound to it has been
    removed and its connection closed. *)
Theorem connect_ssh_failure_clears_port (env : Env)
    (host username password : string) (port0 : option Z) (st st' : State)
    (e : exn) :
  one_entry_per_port (proxies st) →
  connect_ssh env host username password port0 st = (Raise e, st') →
  (∀ q, q ∈ proxies st' → port q ≠ local_port env port0) ∧
  (∀ q, q ∈ proxies st → port q = local_port env port0 →
        (q ∉ proxies st') ∧ connection q ∈ closed st').
Proof.
  intros Hinv Hrun. set (p := local_port env port0).
  destruct (connect_ssh_registry env host username password port0 st)
    as [Hreg _].
  pose proof (connect_ssh_closed env host username password port0 st) as Hcl.
  cbn zeta in Hcl. rewrite Hrun in Hreg, Hcl. simpl in Hreg, Hcl.
  rewrite app_nil_r in Hreg. fold p in Hreg, Hcl.
  destruct (registry_without_one_entry p _ Hinv) as [_ Hmem].
  rewrite <- Hreg in Hmem.
  split.
  - intros q Hq. by apply Hmem in Hq as [_ Hne].
  - intros q Hq Hport. split.
    { intros Hq'. by apply Hmem in Hq' as [_ Hne]. }
    assert (connection q ∈ closed (kill_proxy_on_port p st).2) as Hkilled.
    { destruct (List.find (λ proxy, bool_decide (port proxy = p)) (proxies st))
        as [proxy|] eqn:Hf.
      - rewrite (SshControllersFacts.kill_proxy_on_port_found p st proxy Hf).
        simpl. destruct (find_port_Some p _ proxy Hf)
          as (pre & post & Heq & Hp & Hpre).
        assert (q = proxy) as ->; [|left].
        rewrite Heq in Hq. unfold one_entry_per_port in Hinv.
        rewrite Heq, fmap_app, fmap_cons in Hinv.
        apply NoDup_app in Hinv as (_ & _ & Hnd).
        apply NoDup_cons in Hnd as [Hfresh _].
        apply elem_of_app in Hq as [Hq|Hq];
          [by destruct (Hpre q Hq)|].
        apply elem_of_cons in Hq as [->|Hq]; [done|].
        destruct Hfresh. rewrite Hp, <- Hport.
        by apply list_elem_of_fmap_2.
      - pose proof (proj1 (SshControllersFacts.find_port_None p _) Hf)
          as Hnone.
        by destruct (Hnone q Hq). }
    rewrite Hcl.
    destruct (get_first_success env host username password _) as [conn|];
      [|done].
    destruct (forward_socks env conn p) as [[]|]; [|done].
    destruct (get_proxy_ip env _) as [ip|]; [|done].
    case_bool_decide; [by right | done].
Qed.

Lemma connect_ssh_failure_clears_port_witness :
  one_entry_per_port (proxies TunnelSamples.state_one) ∧
  ∃ e st',
    connect_ssh TunnelSamples.env_refused "10.0.0.5" "a" "b" (Some 5000)
                TunnelSamples.state_one = (Raise e, st') ∧
    proxies st' = [] ∧ mkConnection 3 22 ∈ closed st'.
Proof.
  assert (one_entry_per_port (proxies TunnelSamples.state_one)) as Hinv.
  { unfold one_entry_per_port. simpl. apply NoDup_singleton. }
  split; [exact Hinv|].
  eexists _, _.
  assert (connect_ssh TunnelSamples.env_refused "10.0.0.5" "a" "b"
            (Some 5000) TunnelSamples.state_one
          = (Raise (SSHError
                      "ConnectionRefusedError: [Errno 111] refused."),
             mkState [] ∅ [mkConnection 3 22])) as Hrun
    by (vm_compute; reflexivity).
  split; [exact Hrun|]. split; [reflexivity|].
  destruct (connect_ssh_failure_clears_port _ _ _ _ _ _ _ _ Hinv Hrun)
    as [_ Hold].
  apply (Hold (new_ProxyInfo 5000 (mkConnection 3 22))).
  - left.
  - reflexivity.
Defined.


(** X15. When the forward cannot be set up, or the verification round-trip
    raises, [connect_ssh] fails with the re-raised error and closes no
    connection beyond the tunnel it tore down at the start: the connection
    it has just opened is left open. *)
Theorem connect_ssh_leaves_connection_open (env : Env)
    (host username password : string) (port0 : option Z) (st : State)
    (conn : SSHClientConnection) (e : exn) :
  let p := local_port env port0 in
  let run := connect_ssh env host username password port0 st in
  get_first_success env host username password
    (candidate_ports env st host username password) = Ok conn →
  forward_socks env conn p = Raise e ∨
  (forward_socks env conn p = Ok tt ∧
   get_proxy_ip env (address (new_ProxyInfo p conn)) = Raise e) →
  run.1 = Raise (reraised e) ∧
  closed run.2 = closed (kill_proxy_on_port p st).2 ∧
  (conn ∉ closed (kill_proxy_on_port p st).2 → conn ∉ closed run.2).
Proof.
  intros p run Hconn Hfail.
  assert (run.1 = Raise (reraised e)) as Hres.
  { unfold run. rewrite SshControllersFacts.connect_ssh_run. cbn zeta.
    rewrite candidate_ports_after_teardown, Hconn. fold p.
    destruct Hfail as [->|[-> ->]]; reflexivity. }
  assert (closed run.2 = closed (kill_proxy_on_port p st).2) as Hcl.
  { unfold run.
    pose proof (connect_ssh_closed env host username password port0 st) as H.
    cbn zeta in H. rewrite H, Hconn. fold p.
    destruct Hfail as [->|[-> ->]]; reflexivity. }
  split_and!; [done|done|]. by rewrite Hcl.
Qed.

Lemma connect_ssh_leaves_connection_open_witness :
  let run :=
    connect_ssh TunnelSamples.env_forward_fails "10.0.0.5" "a" "b"
                (Some 5000) TunnelSamples.state0 in
  get_first_success TunnelSamples.env_forward_fails "10.0.0.5" "a" "b"
    (candidate_ports TunnelSamples.env_forward_fails TunnelSamples.state0
       "10.0.0.5" "a" "b") = Ok (mkConnection 7 22) ∧
  run.1 = Raise (SSHError "OSError: [Errno 98] address already in use.") ∧
  mkConnection 7 22 ∉ closed run.2.
Proof.
  intros run.
  assert (get_first_success TunnelSamples.env_forward_fails "10.0.0.5" "a" "b"
            (candidate_ports TunnelSamples.env_forward_fails
               TunnelSamples.state0 "10.0.0.5" "a" "b")
          = Ok (mkConnection 7 22)) as Hconn by reflexivity.
  split; [exact Hconn|].
  destruct (connect_ssh_leaves_connection_open
              TunnelSamples.env_forward_fails "10.0.0.5" "a" "b" (Some 5000)
              TunnelSamples.state0 (mkConnection 7 22)
              (OSError "OSError" "[Errno 98] address already in use")
              Hconn (or_introl eq_refl)) as (Hres & _ & Hopen).
  split; [exact Hres|]. apply Hopen. simpl. apply not_elem_of_nil.
Defined.



(** *** The cache key *)

Lemma split_at_bar (a a' r r' : string) :
  bar_free a = true → bar_free a' = true →
  a +:+ String "|" r = a' +:+ String "|" r' → a = a' ∧ r = r'.
Proof.
  revert a'. induction a as [|c a IH]; intros [|c' a']; simpl.
  - intros _ _ [= ->]. done.
  - intros _ Hfree [= <- _]. by rewrite bool_decide_eq_true_2 in Hfree.
  - intros Hfree _ [= -> _]. by rewrite bool_decide_eq_true_2 in Hfree.
  - intros [_ Ha]%andb_true_iff [_ Ha']%andb_true_iff [= -> Heq].
    destruct (IH a' Ha Ha' Heq) as [-> ->]. done.
Qed.

Lemma cache_key_inj (host username password host' username' password' : string) :
  bar_free host = true → bar_free username = true →
  bar_free host' = true → bar_free username' = true →
  cache_key host username password = cache_key host' username' password' →
  host = host' ∧ username = username' ∧ password = password'.
Proof.
  unfold cache_key. intros Hh Hu Hh' Hu' Heq.
  apply split_at_bar in Heq as [-> Heq]; [|done..].
  apply split_at_bar in Heq as [-> ->]; done.
Qed.

(** X17. Where host and username hold no bar, the bar-joined key tells triples
    apart, and an establishment for one triple leaves the candidate ports
    of every other triple as they were. *)
Theorem connect_ssh_cache_frame (env env2 : Env)
    (host username password host' username' password' : string)
    (port0 : option Z) (st : State) :
  bar_free host = true → bar_free username = true →
  bar_free host' = true → bar_free username' = true →
  (host, username, password) ≠ (host', username', password') →
  cache_key host username password ≠ cache_key host' username' password' ∧
  candidate_ports env2 (connect_ssh env host username password port0 st).2
                  host' username' password'
  = candidate_ports env2 st host' username' password'.
Proof.
  intros Hh Hu Hh' Hu' Hne.
  assert (cache_key host username password
          ≠ cache_key host' username' password') as Hkey.
  { intros Heq. apply Hne.
    by destruct (cache_key_inj _ _ _ _ _ _ Hh Hu Hh' Hu' Heq) as (-> & -> & ->). }
  split; [exact Hkey|].
  unfold candidate_ports. rewrite connect_ssh_cache.
  destruct (get_first_success env host username password _); [|done].
  by rewrite lookup_insert_ne.
Qed.

Lemma connect_ssh_cache_frame_witness :
  (("10.0.0.5", "a", "b") : string * string * string) ≠ ("10.0.0.5", "a", "c") ∧
  candidate_ports TunnelSamples.env_verified
    (connect_ssh TunnelSamples.env_verified "10.0.0.5" "a" "b" (Some 5000)
                 TunnelSamples.state0).2 "10.0.0.5" "a" "c"
  = candidate_ports TunnelSamples.env_verified TunnelSamples.state0
                    "10.0.0.5" "a" "c".
Proof.
  assert ((("10.0.0.5", "a", "b") : string * string * string)
          ≠ ("10.0.0.5", "a", "c")) as Hne by discriminate.
  split; [exact Hne|].
  destruct (connect_ssh_cache_frame TunnelSamples.env_verified
              TunnelSamples.env_verified "10.0.0.5" "a" "b"
              "10.0.0.5" "a" "c" (Some 5000) TunnelSamples.state0
              eq_refl eq_refl eq_refl eq_refl Hne) as [_ Hframe].
  exact Hframe.
Defined.

(** *** The configured candidate ports *)

Lemma digit_of_pretty_N_char (k : N) :
  (k < 10)%N → digit_of (pretty_N_char k) = Some (Z.of_N k).
Proof.
  intros Hk.
  assert (k = 0 ∨ k = 1 ∨ k = 2 ∨ k = 3 ∨ k = 4 ∨ k = 5 ∨ k = 6 ∨ k = 7
          ∨ k = 8 ∨ k = 9)%N as Hcases by lia.
  repeat (destruct Hcases as [->|Hcases]; [reflexivity|]).
  by subst k.
Qed.

Lemma findall_ints_pretty_N_go (x : N) (s rest : string) :
  findall_ints (pretty_N_go x s +:+ rest) None
  = if decide (x = 0)%N then findall_ints (s +:+ rest) None
    else findall_ints (s +:+ rest) (Some (Z.of_N x)).
Proof.
  revert s. induction (N.lt_wf_0 x) as [x _ IH]. intros s.
  destruct (decide (x = 0)%N) as [->|Hx]; [by rewrite pretty_N_go_0|].
  rewrite pretty_N_go_step by lia.
  rewrite IH by (apply N.div_lt; lia).
  pose proof (digit_of_pretty_N_char (x `mod` 10)%N) as Hd.
  specialize (Hd ltac:(apply N.mod_lt; lia)).
  pose proof (N.div_mod x 10 ltac:(lia)) as Hdm.
  destruct (decide (x `div` 10 = 0)%N) as [Hz|Hz]; simpl; rewrite Hd.
  - do 2 f_equal. lia.
  - do 2 f_equal. lia.
Qed.

Lemma findall_ints_pretty (n : Z) (rest : string) :
  0 ≤ n →
  findall_ints (pretty n +:+ rest) None = findall_ints rest (Some n).
Proof.
  intros Hn. destruct n as [|x|x]; [reflexivity| |lia].
  change (pretty (Z.pos x)) with (pretty (N.pos x)).
  unfold pretty, pretty_N. rewrite decide_False by done.
  rewrite findall_ints_pretty_N_go. by rewrite decide_False by done.
Qed.

Lemma findall_ints_digit_free (sep rest : string) (cur : option Z) :
  digit_free sep = true → sep ≠ "" →
  findall_ints (sep +:+ rest) cur
  = match cur with Some n => [n] | None => [] end ++ findall_ints rest None.
Proof.
  intros Hfree Hne. destruct sep as [|c sep]; [done|]. clear Hne.
  simpl in *. destruct (digit_of c); [discriminate|].
  assert (findall_ints (sep +:+ rest) None = findall_ints rest None) as Htail.
  { clear c. induction sep as [|c sep IH]; simpl in *; [done|].
    destruct (digit_of c); [discriminate|]. by apply IH. }
  destruct cur; simpl; by rewrite Htail.
Qed.

Lemma string_app_empty_r (s : string) : s +:+ "" = s.
Proof.
  induction s as [|c s IH]; [done|].
  change (String c (s +:+ "") = String c s). by rewrite IH.
Qed.

(** Ports written in decimal and joined by a separator that holds no digit
    are read back as they were written. *)
Lemma findall_ints_join_ports (sep : string) (ports : list Z) :
  digit_free sep = true → sep ≠ "" → Forall (λ p, 0 ≤ p) ports →
  findall_ints (join_ports sep ports) None = ports.
Proof.
  intros Hfree Hne Hpos. induction Hpos as [|p ports Hp Hpos IH]; [done|].
  destruct ports as [|p2 ports].
  - change (join_ports sep [p]) with (pretty p).
    replace (pretty p) with (pretty p +:+ "") by apply string_app_empty_r.
    by rewrite findall_ints_pretty.
  - change (join_ports sep (p :: p2 :: ports))
      with (pretty p +:+ sep +:+ join_ports sep (p2 :: ports)).
    rewrite findall_ints_pretty by done.
    rewrite findall_ints_digit_free by done.
    by rewrite IH.
Qed.

Lemma findall_ints_no_digit (s : string) :
  digit_free s = true → findall_ints s None = [].
Proof.
  induction s as [|c s IH]; simpl; [done|].
  destruct (digit_of c); [discriminate | done].
Qed.

(** X18. For a configuration value that is ASCII text of at most
    [int_max_str_digits] characters, the candidate list is never empty.
    With nothing cached for the triple, a value that holds no digit gives
    the default port 22 alone, and ports written in decimal, joined by a
    separator without digits, are the candidates, in the order written. *)
Theorem candidate_ports_from_config (env : Env) (st : State)
    (host username password : string) :
  ascii_only (config_ssh_ports env) = true →
  (String.length (config_ssh_ports env) ≤ int_max_str_digits)%nat →
  candidate_ports env st host username password ≠ [] ∧
  (ssh_port st !! cache_key host username password = None →
   (digit_free (config_ssh_ports env) = true →
    candidate_ports env st host username password = [22]) ∧
   (∀ sep ports,
      digit_free sep = true → sep ≠ "" → ports ≠ [] →
      Forall (λ p, 0 ≤ p) ports →
      config_ssh_ports env = join_ports sep ports →
      candidate_ports env st host username password = ports)).
Proof.
  intros _ _. split.
  - unfold candidate_ports, list_or.
    destruct (default [] (ssh_port st !! cache_key host username password));
      [|done].
    by destruct (findall_ints (config_ssh_ports env) None).
  - intros Hnone. unfold candidate_ports. rewrite Hnone. simpl. split.
    + intros Hfree. by rewrite findall_ints_no_digit.
    + intros sep ports Hfree Hsep Hports Hpos ->.
      rewrite findall_ints_join_ports by done.
      by destruct ports.
Qed.

Lemma candidate_ports_from_config_witness :
  ascii_only (config_ssh_ports TunnelSamples.env_verified) = true ∧
  (String.length (config_ssh_ports TunnelSamples.env_verified)
   ≤ int_max_str_digits)%nat ∧
  candidate_ports TunnelSamples.env_verified TunnelSamples.state0
                  "10.0.0.5" "a" "b" = [2222; 22].
Proof.
  assert (ascii_only (config_ssh_ports TunnelSamples.env_verified) = true)
    as Hascii by reflexivity.
  assert (String.length (config_ssh_ports TunnelSamples.env_verified)
          ≤ int_max_str_digits)%nat as Hlen
    by (vm_compute; lia).
  split; [exact Hascii|]. split; [exact Hlen|].
  destruct (candidate_ports_from_config TunnelSamples.env_verified
              TunnelSamples.state0 "10.0.0.5" "a" "b" Hascii Hlen)
    as (_ & Hcfg).
  destruct (Hcfg eq_refl) as (_ & Hjoin).
  apply (Hjoin ", " [2222; 22]).
  - reflexivity.
  - discriminate.
  - discriminate.
  - repeat constructor; lia.
  - reflexivity.
Defined.

(** *** get_algs_config *)

Lemma decode_fmap (l : list string) : decode <$> l = l.
Proof. induction l as [|x l IH]; [done|]. by rewrite fmap_cons, IH. Qed.

Lemma remove_name_absent (x : string) (l : list string) :
  x ∉ l → remove_name x l = l.
Proof.
  induction l as [|y l IH]; simpl; [done|].
  intros Hx. apply not_elem_of_cons in Hx as [Hne Hx].
  rewrite decide_False by done. by rewrite IH.
Qed.

Lemma remove_name_sublist (x : string) (l : list string) :
  sublist (remove_name x l) l.
Proof.
  induction l as [|y l IH]; simpl; [done|].
  case_decide; [by apply sublist_cons | by apply sublist_skip].
Qed.

Lemma elem_of_remove_name (x a : string) (l : list string) :
  a ≠ x → (a ∈ remove_name x l ↔ a ∈ l).
Proof.
  intros Ha. induction l as [|y l IH]; simpl; [done|].
  case_decide as Hy.
  - subst y. rewrite elem_of_cons. split; [by right | by intros [?|?]].
  - by rewrite !elem_of_cons, IH.
Qed.

Lemma remove_name_NoDup (x : string) (l : list string) :
  NoDup l → x ∉ remove_name x l.
Proof.
  induction l as [|y l IH]; simpl; [intros _; apply not_elem_of_nil|].
  intros [Hy Hl]%NoDup_cons. case_decide as Hyx.
  - by subst y.
  - apply not_elem_of_cons. split; [done | by apply IH].
Qed.

(** X19. The keyword arguments [get_algs_config] builds.  The only host-key
    algorithm offered is ssh-rsa, whatever the library supports.  The key
    exchanges are the library's, in its order, less the first occurrence
    of ecdh-sha2-nistp521, which is therefore never offered when the
    library lists it at most once.  The other lists are the library's, and
    the signature algorithms are the X.509 ones followed by the public-key
    ones. *)
Theorem get_algs_config_spec (lib : Asyncssh) :
  let cfg := get_algs_config lib in
  let kex := remove_name "ecdh-sha2-nistp521" (get_kex_algs lib) in
  cfg !! "server_host_key_algs" = Some ["ssh-rsa"] ∧
  cfg !! "kex_algs" = Some kex ∧
  sublist kex (get_kex_algs lib) ∧
  (∀ alg, alg ≠ "ecdh-sha2-nistp521" → (alg ∈ kex ↔ alg ∈ get_kex_algs lib)) ∧
  (NoDup (get_kex_algs lib) → "ecdh-sha2-nistp521" ∉ kex) ∧
  cfg !! "encryption_algs" = Some (get_encryption_algs lib) ∧
  cfg !! "mac_algs" = Some (get_mac_algs lib) ∧
  cfg !! "compression_algs" = Some (get_compression_algs lib) ∧
  cfg !! "signature_algs"
  = Some (get_x509_certificate_algs lib ++ get_public_key_algs lib) ∧
  (∀ key, is_Some (cfg !! key) ↔
          key ∈ ["server_host_key_algs"; "kex_algs"; "encryption_algs";
                 "mac_algs"; "compression_algs"; "signature_algs"]).
Proof.
  intros cfg kex. unfold cfg, kex, get_algs_config.
  rewrite !lookup_insert_ne by done. rewrite lookup_insert_eq. simpl.
  split_and!.
  - case_bool_decide; rewrite lookup_fmap;
      [rewrite lookup_alter_ne by done|];
      by rewrite lookup_insert_eq.
  - case_bool_decide as Hin; rewrite lookup_fmap.
    + rewrite lookup_alter_eq, lookup_insert_ne, lookup_insert_eq by done.
      simpl. by rewrite decode_fmap.
    + rewrite lookup_insert_ne, lookup_insert_eq by done. simpl.
      by rewrite decode_fmap, remove_name_absent.
  - apply remove_name_sublist.
  - intros alg Halg. by apply elem_of_remove_name.
  - apply remove_name_NoDup.
  - case_bool_decide; rewrite lookup_fmap;
      [rewrite lookup_alter_ne by done|];
      rewrite !lookup_insert_ne by done;
      rewrite lookup_insert_eq; simpl; by rewrite decode_fmap.
  - case_bool_decide; rewrite lookup_fmap;
      [rewrite lookup_alter_ne by done|];
      rewrite !lookup_insert_ne by done;
      rewrite lookup_insert_eq; simpl; by rewrite decode_fmap.
  - case_bool_decide; rewrite lookup_fmap;
      [rewrite lookup_alter_ne by done|];
      rewrite !lookup_insert_ne by done;
      rewrite lookup_insert_eq; simpl; by rewrite decode_fmap.
  - case_bool_decide; rewrite lookup_fmap;
      [rewrite lookup_alter_ne by done|];
      rewrite !lookup_insert_ne by done;
      rewrite lookup_insert_eq; simpl; by rewrite decode_fmap.
  - intros key. rewrite <- elem_of_dom.
    case_bool_decide; rewrite dom_fmap_L; [rewrite dom_alter_L|];
      rewrite !dom_insert_L, dom_empty_L, !elem_of_union, !elem_of_singleton,
        !elem_of_cons, elem_of_nil, elem_of_empty; tauto.
Qed.

End SshControllersMore.

(** * Properties of the helpers and of the configuration *)

Module UtilsFacts.
Import Utils.

Lemma wait_for_db_update_Some (last_sql : nat → string) (fuel polls r : nat) :
  wait_for_db_update last_sql polls fuel = Some r →
  (polls ≤ r < polls + fuel)%nat ∧
  String.prefix "SELECT" (last_sql r) = false ∧
  ∀ j, (polls ≤ j < r)%nat → String.prefix "SELECT" (last_sql j) = true.
Proof.
  revert polls. induction fuel as [|fuel IH]; intros polls;
    cbn [wait_for_db_update]; [discriminate|].
  destruct (String.prefix "SELECT" (last_sql polls)) eqn:Hp; cbn [negb].
  - intros Hr. destruct (IH _ Hr) as (Hrange & Hlast & Hbefore).
    split; [lia|]. split; [done|]. intros j Hj.
    destruct (decide (j = polls)) as [->|Hne]; [done|].
    apply Hbefore. lia.
  - intros [= <-]. split; [lia|]. split; [done|]. intros j Hj. lia.
Qed.

Lemma wait_for_db_update_None (last_sql : nat → string) (fuel polls : nat) :
  wait_for_db_update last_sql polls fuel = None ↔
  ∀ j, (polls ≤ j < polls + fuel)%nat →
       String.prefix "SELECT" (last_sql j) = true.
Proof.
  revert polls. induction fuel as [|fuel IH]; intros polls;
    cbn [wait_for_db_update].
  - split; [intros _ j Hj; lia | done].
  - destruct (String.prefix "SELECT" (last_sql polls)) eqn:Hp; cbn [negb].
    + rewrite IH. split.
      * intros Hall j Hj.
        destruct (decide (j = polls)) as [->|Hne]; [done|].
        apply Hall. lia.
      * intros Hall j Hj. apply Hall. lia.
    + split; [discriminate|]. intros Hall.
      rewrite Hall in Hp by lia. discriminate.
Qed.

(** X20. [wait_for_db_update] returns at the first poll at which the last
    statement of the store does not start with SELECT, after one sleep per
    earlier poll; as long as every poll sees a SELECT it keeps waiting. *)
Theorem wait_for_db_update_spec (last_sql : nat → string) (fuel : nat) :
  (∀ k, wait_for_db_update last_sql 0 fuel = Some k ↔
        (k < fuel)%nat ∧
        String.prefix "SELECT" (last_sql k) = false ∧
        ∀ j, (j < k)%nat → String.prefix "SELECT" (last_sql j) = true) ∧
  (wait_for_db_update last_sql 0 fuel = None ↔
   ∀ j, (j < fuel)%nat → String.prefix "SELECT" (last_sql j) = true).
Proof.
  split.
  - intros k. split.
    + intros Hk. apply wait_for_db_update_Some in Hk as (Hr & Hlast & Hbefore).
      split; [lia|]. split; [done|]. intros j Hj. apply Hbefore. lia.
    + intros (Hk & Hlast & Hbefore).
      destruct (wait_for_db_update last_sql 0 fuel) as [r|] eqn:Hw.
      * apply wait_for_db_update_Some in Hw as (Hr & Hrlast & Hrbefore).
        f_equal. destruct (Nat.lt_trichotomy r k) as [Hlt|[->|Hgt]]; [|done|].
        -- rewrite Hbefore in Hrlast by done. discriminate.
        -- rewrite Hrbefore in Hlast by lia. discriminate.
      * pose proof (proj1 (wait_for_db_update_None _ _ _) Hw k) as Hall.
        rewrite Hall in Hlast by lia. discriminate.
  - rewrite wait_for_db_update_None. split.
    + intros Hall j Hj. apply Hall. lia.
    + intros Hall j Hj. apply Hall. lia.
Qed.

End UtilsFacts.

Module ConfigFacts.
Import Config.

(** *** The configuration file *)

Lemma get_plain
    (interpolate : ConfigParser → string → string → string → result string)
    (config : ConfigParser) (section option text : string) :
  interpolation_keeps_plain interpolate →
  get no_interpolation config section option = Ok text →
  percent_free text = true →
  get interpolate config section option = Ok text.
Proof.
  intros Hplain Hget Hfree. unfold get in *.
  destruct (if bool_decide (section = "DEFAULT") then Some ∅
            else sects config !! section) as [d|]; [|discriminate].
  destruct ((d ∪ defaults config) !! optionxform option) as [text'|];
    [|discriminate].
  unfold no_interpolation in Hget. injection Hget as ->.
  by apply Hplain.
Qed.

(** A configuration with a section under [key] has sections. *)
Ltac has_section key :=
  let Heq := fresh "Heq" in
  let Hin := fresh "Hin" in
  intros Heq;
  assert (key ∈ (∅ : gset string)) as Hin;
  [rewrite <- Heq; apply elem_of_dom; vm_compute; eexists; reflexivity
  |by apply elem_of_empty in Hin].

(** What [get_default_config] builds from [DEFAULT_CONFIG]. *)
Lemma default_config_facts :
  ∃ config,
    get_default_config = Ok config ∧
    sections config ≠ ∅ ∧
    Forall (λ item,
              ∃ text,
                str (value item) = Ok text ∧
                get no_interpolation config (section item) (name item)
                = Ok text ∧
                percent_free text = true ∧
                convert (value item) text = Ok (value item))
           DEFAULT_CONFIG.
Proof.
  eexists. split; [vm_compute; reflexivity|]. split.
  - has_section "WEB".
  - unfold DEFAULT_CONFIG.
    repeat constructor;
      (eexists; split; [vm_compute; reflexivity|];
       split_and!; vm_compute; reflexivity).
Qed.

Lemma get_config_Some (config : ConfigParser) :
  sections config ≠ ∅ → get_config (Some config) = (Ok config, Some config).
Proof.
  intros Hsec. unfold get_config. cbn [read default].
  by rewrite bool_decide_eq_false_2.
Qed.

Lemma sections_new : sections new_ConfigParser = ∅.
Proof. unfold sections. simpl. apply dom_empty_L. Qed.

(** X22. The defaults are read back as they are: after [reset_config], and
    likewise when there is no file, [get_config_value] returns the default
    value of every item of [DEFAULT_CONFIG], and the file then holds the
    defaults. *)
Theorem get_config_value_reads_back
    (interpolate : ConfigParser → string → string → string → result string)
    (item : ConfigItem) (file : File) :
  interpolation_keeps_plain interpolate →
  item ∈ DEFAULT_CONFIG →
  let stored := (reset_config file).2 in
  (reset_config file).1 = Ok tt ∧
  get_config_value interpolate item stored = (Ok (value item), stored) ∧
  get_config_value interpolate item None = (Ok (value item), stored).
Proof.
  intros Hplain Hin.
  destruct default_config_facts as (cfg0 & Hdef & Hsec & Hall).
  rewrite Forall_forall in Hall.
  destruct (Hall item Hin) as (text & _ & Hget & Hfree & Hconv).
  pose proof (get_plain interpolate cfg0 _ _ _ Hplain Hget Hfree) as Hget'.
  assert (get_config (Some cfg0) = (Ok cfg0, Some cfg0)) as Hstored.
  { unfold get_config. cbn [read default].
    by rewrite bool_decide_eq_false_2. }
  assert (get_config None = (Ok cfg0, Some cfg0)) as Hnone.
  { unfold get_config. cbn [read default].
    rewrite bool_decide_eq_true_2 by apply sections_new. by rewrite Hdef. }
  unfold reset_config. rewrite Hdef. cbn [fst snd]. cbn zeta.
  unfold write_config.
  split_and!; [done| |]; unfold get_config_value.
  - by rewrite Hstored, Hget', Hconv.
  - by rewrite Hnone, Hget', Hconv.
Qed.

Lemma get_config_value_reads_back_witness :
  interpolation_keeps_plain no_interpolation ∧
  ConfigSamples.item_web_workers ∈ DEFAULT_CONFIG ∧
  (get_config_value no_interpolation ConfigSamples.item_web_workers None).1
  = Ok (VInt 5).
Proof.
  assert (interpolation_keeps_plain no_interpolation) as Hplain
    by (intros config section option text _; reflexivity).
  assert (ConfigSamples.item_web_workers ∈ DEFAULT_CONFIG) as Hin
    by (unfold DEFAULT_CONFIG; do 6 right; left).
  split; [exact Hplain|]. split; [exact Hin|].
  destruct (get_config_value_reads_back no_interpolation
              ConfigSamples.item_web_workers None Hplain Hin)
    as (_ & _ & Hread).
  by rewrite Hread.
Defined.

(** X23. [get_config] on a file that is absent or parses.  With no file, or a
    file without any section besides DEFAULT, the defaults are written and
    returned; a file with a section is returned as it is and left alone.
    Whatever [get_config] returned and left, a second [get_config] returns
    the same configuration and leaves the same file. *)
Theorem get_config_spec :
  ∃ defaults_config,
    get_default_config = Ok defaults_config ∧
    get_config None = (Ok defaults_config, Some defaults_config) ∧
    (∀ config,
       sections config = ∅ →
       get_config (Some config) = (Ok defaults_config, Some defaults_config)) ∧
    (∀ config,
       sections config ≠ ∅ →
       get_config (Some config) = (Ok config, Some config)) ∧
    (∀ file config file',
       get_config file = (Ok config, file') →
       get_config file' = (Ok config, file')).
Proof.
  destruct default_config_facts as (cfg0 & Hdef & Hsec & _).
  exists cfg0. split; [done|].
  assert (∀ file, sections (read file) = ∅ →
                  get_config file = (Ok cfg0, Some cfg0)) as Hempty.
  { intros file Hnone. unfold get_config.
    rewrite bool_decide_eq_true_2 by done. by rewrite Hdef. }
  split_and!.
  - apply Hempty. apply sections_new.
  - intros config Hnone. by apply Hempty.
  - apply get_config_Some.
  - intros file config file' Hrun.
    destruct (decide (sections (read file) = ∅)) as [Hnone|Hsome].
    + rewrite (Hempty file Hnone) in Hrun. injection Hrun as <- <-.
      by apply get_config_Some.
    + unfold get_config in Hrun.
      rewrite bool_decide_eq_false_2 in Hrun by done.
      injection Hrun as <- <-.
      destruct file as [config|]; [by apply get_config_Some|].
      by destruct Hsome; apply sections_new.
Qed.

(** X24. A file that has a section is never completed from the defaults: an
    item whose section the file lacks makes [get_config_value] raise
    [NoSectionError], naming the section, and one whose option is missing
    from its section and from DEFAULT makes it raise [NoOptionError],
    naming the lower-cased option and the section; the file is left
    alone.  The names are ASCII text. *)
Theorem get_config_value_no_fallback
    (interpolate : ConfigParser → string → string → string → result string)
    (config : ConfigParser) (item : ConfigItem) :
  sections config ≠ ∅ →
  section item ≠ "DEFAULT" →
  ascii_only (section item) = true →
  ascii_only (name item) = true →
  (section item ∉ sections config →
   get_config_value interpolate item (Some config)
   = (Raise (OtherError "NoSectionError"
               ("No section: " +:+ py_repr (section item))),
      Some config)) ∧
  (∀ d, sects config !! section item = Some d →
        d !! optionxform (name item) = None →
        defaults config !! optionxform (name item) = None →
        get_config_value interpolate item (Some config)
        = (Raise (OtherError "NoOptionError"
                    ("No option " +:+ py_repr (optionxform (name item))
                     +:+ " in section: " +:+ py_repr (section item))),
           Some config)).
Proof.
  intros Hsec Hnd _ _. unfold get_config_value.
  rewrite get_config_Some by done.
  unfold get. cbn zeta. rewrite bool_decide_eq_false_2 by done. split.
  - intros Hmissing. unfold sections in Hmissing.
    apply not_elem_of_dom in Hmissing. by rewrite Hmissing.
  - intros d Hd Hopt Hdef. rewrite Hd.
    by rewrite (proj2 (lookup_union_None d (defaults config) _)).
Qed.

Lemma get_config_value_no_fallback_witness :
  sections ConfigSamples.config_web_only ≠ ∅ ∧
  section ConfigSamples.item_ssh_tasks_count ≠ "DEFAULT" ∧
  get_config_value no_interpolation ConfigSamples.item_ssh_tasks_count
    (Some ConfigSamples.config_web_only)
  = (Raise (OtherError "NoSectionError" "No section: 'SSH'"),
     Some ConfigSamples.config_web_only) ∧
  get_config_value no_interpolation ConfigSamples.item_web_workers
    (Some ConfigSamples.config_web_only)
  = (Raise (OtherError "NoOptionError"
              "No option 'workers' in section: 'WEB'"),
     Some ConfigSamples.config_web_only).
Proof.
  assert (sections ConfigSamples.config_web_only ≠ ∅) as Hsec
    by has_section "WEB".
  assert (section ConfigSamples.item_ssh_tasks_count ≠ "DEFAULT") as Hnd
    by discriminate.
  assert (section ConfigSamples.item_web_workers ≠ "DEFAULT") as Hnd'
    by discriminate.
  split; [exact Hsec|]. split; [exact Hnd|]. split.
  - destruct (get_config_value_no_fallback no_interpolation
                ConfigSamples.config_web_only
                ConfigSamples.item_ssh_tasks_count Hsec Hnd
                eq_refl eq_refl) as [Hmiss _].
    apply Hmiss. apply not_elem_of_dom. vm_compute. reflexivity.
  - destruct (get_config_value_no_fallback no_interpolation
                ConfigSamples.config_web_only
                ConfigSamples.item_web_workers Hsec Hnd'
                eq_refl eq_refl) as [_ Hopt].
    apply (Hopt {[ "port" := "8080" ]}); vm_compute; reflexivity.
Defined.

(** X25. A boolean item reads as [True] whatever non-empty text the file holds
    for it, "False" included: the text is converted with [bool], which
    only tells the empty text apart. *)
Theorem get_config_value_bool
    (interpolate : ConfigParser → string → string → string → result string)
    (config : ConfigParser) (item : ConfigItem) (b : bool) (text : string) :
  interpolation_keeps_plain interpolate →
  sections config ≠ ∅ →
  value item = VBool b →
  get no_interpolation config (section item) (name item) = Ok text →
  percent_free text = true →
  text ≠ "" →
  get_config_value interpolate item (Some config)
  = (Ok (VBool true), Some config).
Proof.
  intros Hplain Hsec Hval Hget Hfree Htext.
  unfold get_config_value. rewrite get_config_Some by done.
  rewrite (get_plain interpolate config _ _ _ Hplain Hget Hfree).
  rewrite Hval. unfold convert, py_bool.
  by rewrite bool_decide_eq_false_2.
Qed.

Lemma get_config_value_bool_witness :
  get no_interpolation ConfigSamples.config_unique_off
      (section ConfigSamples.item_use_unique_ssh)
      (name ConfigSamples.item_use_unique_ssh) = Ok "False" ∧
  get_config_value no_interpolation ConfigSamples.item_use_unique_ssh
    (Some ConfigSamples.config_unique_off)
  = (Ok (VBool true), Some ConfigSamples.config_unique_off).
Proof.
  assert (get no_interpolation ConfigSamples.config_unique_off
            (section ConfigSamples.item_use_unique_ssh)
            (name ConfigSamples.item_use_unique_ssh) = Ok "False") as Hget
    by (vm_compute; reflexivity).
  split; [exact Hget|].
  apply (get_config_value_bool no_interpolation
           ConfigSamples.config_unique_off
           ConfigSamples.item_use_unique_ssh true "False").
  - intros config section option text _. reflexivity.
  - has_section "PORT".
  - reflexivity.
  - exact Hget.
  - reflexivity.
  - discriminate.
Defined.

(** *** The loop of get_default_config *)

Lemma add_item_Ok (config : ConfigParser) (item : ConfigItem) :
  section item ≠ "DEFAULT" →
  str_within_limit (value item) = true →
  ∃ config',
    add_item config item = Ok config' ∧
    sections config' = sections config ∪ {[section item]}.
Proof.
  intros Hnd Hlimit.
  assert (∃ text, str (value item) = Ok text) as [text Hstr].
  { unfold str. rewrite Hlimit. destruct (value item) as [n|[]]; by eexists. }
  assert (∀ config1,
            section item ∈ sections config1 →
            ∃ config',
              setitem (section item) (name item) text config1 = Ok config' ∧
              sections config' = sections config1) as Hset.
  { intros config1 Hin. unfold setitem.
    rewrite (bool_decide_eq_false_2 (section item = "DEFAULT")) by done.
    rewrite (bool_decide_eq_true_2 (section item ∈ sections config1)) by done.
    cbn [negb andb orb].
    destruct (bool_decide (section item = "")); cbn [orb].
    - by eexists.
    - unfold sections in Hin. apply elem_of_dom in Hin as [d Hd].
      rewrite Hd. eexists. split; [reflexivity|].
      unfold sections. cbn [sects]. rewrite dom_insert_L.
      apply set_eq. intros x. rewrite elem_of_union, elem_of_singleton.
      split; [|tauto]. intros [->|?]; [|done]. by apply elem_of_dom. }
  unfold add_item. rewrite Hstr.
  destruct (bool_decide (section item ∉ sections config)) eqn:Hnew; cbn zeta.
  - apply bool_decide_eq_true in Hnew. unfold add_section.
    rewrite (bool_decide_eq_false_2 (section item = "DEFAULT")) by done.
    rewrite (bool_decide_eq_false_2 (section item ∈ sections config)) by done.
    set (config1 := mkConfigParser (defaults config)
                      (<[section item := ∅]> (sects config))).
    assert (sections config1 = sections config ∪ {[section item]}) as Hsecs.
    { unfold sections, config1. cbn [sects]. rewrite dom_insert_L.
      apply set_eq. intros x. rewrite !elem_of_union, elem_of_singleton.
      tauto. }
    destruct (Hset config1) as (config' & Hrun & Hsame).
    { rewrite Hsecs, elem_of_union, elem_of_singleton. by right. }
    exists config'. split; [done|]. by rewrite Hsame.
  - apply bool_decide_eq_false in Hnew. apply dec_stable in Hnew.
    destruct (Hset config Hnew) as (config' & Hrun & Hsame).
    exists config'. split; [done|]. rewrite Hsame.
    apply set_eq. intros x. rewrite elem_of_union, elem_of_singleton.
    split; [tauto|]. by intros [?| ->].
Qed.

Lemma add_item_DEFAULT (config : ConfigParser) (item : ConfigItem) :
  "DEFAULT" ∉ sections config → section item = "DEFAULT" →
  add_item config item
  = Raise (OtherError "ValueError" "Invalid section name: 'DEFAULT'").
Proof.
  intros Hinv Hd. unfold add_item, add_section. rewrite Hd.
  rewrite (bool_decide_eq_true_2 ("DEFAULT" ∉ sections config)) by done.
  cbn zeta. by rewrite bool_decide_eq_true_2.
Qed.

Lemma add_items_spec (items : list ConfigItem) (config : ConfigParser) :
  "DEFAULT" ∉ sections config →
  Forall (λ item, str_within_limit (value item) = true) items →
  ((∀ item, item ∈ items → section item ≠ "DEFAULT") →
   ∃ config',
     add_items items config = Ok config' ∧
     ∀ s, s ∈ sections config' ↔
          s ∈ sections config ∨ ∃ item, item ∈ items ∧ section item = s) ∧
  ((∃ item, item ∈ items ∧ section item = "DEFAULT") →
   add_items items config
   = Raise (OtherError "ValueError" "Invalid section name: 'DEFAULT'")).
Proof.
  intros Hinv Hlimit. revert config Hinv.
  induction Hlimit as [|item items Hitem Hlimit IH]; intros config Hinv.
  - split.
    + intros _. exists config. split; [done|]. intros s. split; [auto|].
      intros [Hs|(item & Hitem & _)]; [done|]. by apply elem_of_nil in Hitem.
    + intros (item & Hitem & _). by apply elem_of_nil in Hitem.
  - simpl. destruct (decide (section item = "DEFAULT")) as [Hd|Hnd].
    + split.
      * intros Hall. by destruct (Hall item (list_elem_of_here _ _)).
      * intros _. by rewrite add_item_DEFAULT.
    + destruct (add_item_Ok config item Hnd Hitem) as (config1 & -> & Hsec).
      assert ("DEFAULT" ∉ sections config1) as Hinv1.
      { rewrite Hsec, elem_of_union, elem_of_singleton. intros [?|?]; auto. }
      destruct (IH config1 Hinv1) as [IHok IHraise]. split.
      * intros Hall.
        destruct IHok as (config' & Hrun & Hsecs).
        { intros it Hit. apply Hall. by right. }
        exists config'. split; [done|]. intros s. rewrite Hsecs, Hsec.
        rewrite elem_of_union, elem_of_singleton. split.
        -- intros [[Hs| ->]|(it & Hit & Hs)]; [by left| |].
           ++ right. exists item. split; [left | done].
           ++ right. exists it. split; [by right | done].
        -- intros [Hs|(it & [->|Hit]%elem_of_cons & Hs)];
             [by left; left | by left; right |].
           right. by exists it.
      * intros (it & [->|Hit]%elem_of_cons & Hs); [done|].
        apply IHraise. by exists it.
Qed.

(** X26. For items whose values [str] writes, the loop that builds the
    defaults raises exactly when an item sits in the section DEFAULT, which
    [add_section] refuses with [ValueError].  Otherwise it returns a
    configuration whose sections are the sections of the items;
    [add_section] is never asked for a section twice. *)
Theorem get_default_config_from_spec (items : list ConfigItem) :
  Forall (λ item, str_within_limit (value item) = true) items →
  ((∀ item, item ∈ items → section item ≠ "DEFAULT") →
   ∃ config,
     get_default_config_from items = Ok config ∧
     ∀ s, s ∈ sections config ↔ ∃ item, item ∈ items ∧ section item = s) ∧
  ((∃ item, item ∈ items ∧ section item = "DEFAULT") →
   get_default_config_from items
   = Raise (OtherError "ValueError" "Invalid section name: 'DEFAULT'")).
Proof.
  intros Hlimit. unfold get_default_config_from.
  assert ("DEFAULT" ∉ sections new_ConfigParser) as Hinv.
  { rewrite sections_new. apply not_elem_of_empty. }
  destruct (add_items_spec items new_ConfigParser Hinv Hlimit)
    as [Hok Hraise].
  split; [|exact Hraise].
  intros Hall. destruct (Hok Hall) as (config & Hrun & Hsecs).
  exists config. split; [done|]. intros s. rewrite Hsecs, sections_new.
  rewrite elem_of_empty. tauto.
Qed.

Lemma get_default_config_from_spec_witness :
  Forall (λ item, str_within_limit (value item) = true) DEFAULT_CONFIG ∧
  ∃ config,
    get_default_config = Ok config ∧
    ∀ s, s ∈ sections config ↔
         ∃ item, item ∈ DEFAULT_CONFIG ∧ section item = s.
Proof.
  assert (Forall (λ item, str_within_limit (value item) = true)
            DEFAULT_CONFIG) as Hlimit
    by (unfold DEFAULT_CONFIG; repeat constructor).
  split; [exact Hlimit|].
  destruct (get_default_config_from_spec DEFAULT_CONFIG Hlimit) as [Hok _].
  apply Hok. intros item Hin.
  unfold DEFAULT_CONFIG in Hin. rewrite !elem_of_cons, elem_of_nil in Hin.
  repeat (destruct Hin as [->|Hin]; [discriminate|]). destruct Hin.
Defined.

End ConfigFacts.
